(** * A notes application: the [Home] page component

    The component keeps a collection of notes, an editing draft and two
    filter inputs in React state, loads the collection from [localStorage]
    on mount and writes it back whenever it changes.  The development
    embeds the component's handlers as functions on an explicit state
    record and establishes the properties of the store, of the derived
    view and of the persistence round trip.

    Strings: a JavaScript string is a sequence of UTF-16 code units.  The
    model uses Rocq's [string], a sequence of 8-bit units, read as the
    JavaScript strings all of whose code units are below 256 (Basic Latin
    and Latin-1 Supplement).  On that range [trim], [toLowerCase] and
    [includes] below are exactly the platform's functions. *)

From Stdlib Require Import ZArith List String Ascii Bool Lia.
From Stdlib Require Import Sorted Permutation DecimalString DecimalZ.
Import ListNotations.

Open Scope list_scope.
Open Scope string_scope.

(** ** Platform functions used by the component *)

Module JS.

(** A string is truthy iff it is not empty. *)
Definition truthy (s : string) : bool :=
  match s with
  | EmptyString => false
  | String _ _ => true
  end.

(** WhiteSpace and LineTerminator code units below 256:
    TAB, LF, VT, FF, CR, SP and NBSP. *)
Definition isWhiteSpace (c : ascii) : bool :=
  let n := N_of_ascii c in
  (((9 <=? n) && (n <=? 13)) || (n =? 32) || (n =? 160))%N.

Fixpoint trimStart (s : string) : string :=
  match s with
  | EmptyString => EmptyString
  | String c s' => if isWhiteSpace c then trimStart s' else s
  end.

Fixpoint trimEnd (s : string) : string :=
  match s with
  | EmptyString => EmptyString
  | String c s' =>
      match trimEnd s' with
      | EmptyString => if isWhiteSpace c then EmptyString else String c EmptyString
      | r => String c r
      end
  end.

(** [String.prototype.trim] *)
Definition trim (s : string) : string := trimEnd (trimStart s).

(** Lower-case mapping of one code unit: A-Z, and the Latin-1 capitals
    U+00C0..U+00DE except the multiplication sign U+00D7. *)
Definition lowerUnit (c : ascii) : ascii :=
  let n := N_of_ascii c in
  if (((65 <=? n) && (n <=? 90))
      || ((192 <=? n) && (n <=? 222) && negb (n =? 215)))%N
  then ascii_of_N (n + 32)
  else c.

(** [String.prototype.toLowerCase], on strings of code units below 256:
    there the conversion goes unit by unit.  Beyond that range it depends
    on the neighbours of a letter (see [Wide.toLowerCase]). *)
Fixpoint toLowerCase (s : string) : string :=
  match s with
  | EmptyString => EmptyString
  | String c s' => String (lowerUnit c) (toLowerCase s')
  end.

(** [String.prototype.includes]: [q] occurs in [s] as a substring. *)
Fixpoint includes (s q : string) : bool :=
  String.prefix q s ||
  match s with
  | EmptyString => false
  | String _ s' => includes s' q
  end.

(** [Array.prototype.includes] on an array of strings (strict equality). *)
Definition arrayIncludes (l : list string) (x : string) : bool :=
  existsb (String.eqb x) l.

(** [Number.prototype.toString] on an integer of magnitude below 10^21,
    as clock readings are: its decimal numeral. *)
Definition numberToString (z : Z) : string :=
  NilZero.string_of_int (Z.to_int z).

Section Sort.
Context {A : Type}.

(** A comparison function returns a number; [None] stands for NaN. *)
Variable comparefn : A -> A -> option Z.

(** SortCompare: a NaN result counts as +0. *)
Definition SortCompare (x y : A) : Z :=
  match comparefn x y with
  | Some v => v
  | None => 0%Z
  end.

Fixpoint insert (x : A) (l : list A) : list A :=
  match l with
  | [] => [x]
  | y :: l' =>
      if (0 <? SortCompare x y)%Z then y :: insert x l' else x :: y :: l'
  end.

(** [Array.prototype.sort] is stable and, for a consistent comparison
    function, yields the sorted order; stable insertion is one such
    sort (all of them agree on a consistent comparison function). *)
Fixpoint sort (l : list A) : list A :=
  match l with
  | [] => []
  | x :: l' => insert x (sort l')
  end.
End Sort.

(** The comparison of [Array.prototype.sort] called without a comparison
    function, on strings: by code units. *)
Definition defaultCompare (x y : string) : option Z :=
  if (x <? y)%string then Some (-1)%Z
  else if (y <? x)%string then Some 1%Z
  else Some 0%Z.

(** [Array.from(new Set(l))]: the first occurrence of each value, in the
    order of the first occurrences. *)
Fixpoint setOf (l : list string) : list string :=
  match l with
  | [] => []
  | x :: l' => x :: filter (fun y => negb (y =? x)%string) (setOf l')
  end.

End JS.

(** ** JSON text: the platform's [JSON.stringify] and [JSON.parse] *)

Module JSON.

(** A value is represented by its syntax tree: the members of an object
    in textual order, a number by its numeral. *)
#[warnings="-register-all"]
Inductive value : Type :=
| Null
| Bool (b : bool)
| Number (numeral : string)
| Str (s : string)
| Array (elements : list value)
| Object (members : list (string * value)).

(** [SyntaxError] is the exception of [JSON.parse].  [Beyond] reports an
    escape [\uXXXX] that names a code unit above 255, which the 8-bit
    strings of the model cannot hold: the model is silent there.
    [Exhausted] is the end of the parser's fuel; [parse] provides enough
    fuel never to meet it. *)
Inductive error : Type := SyntaxError | Beyond | Exhausted.

Inductive result (A : Type) : Type :=
| Ok (a : A)
| Err (e : error).
Arguments Ok {A} a.
Arguments Err {A} e.

Definition bind {A B : Type} (r : result A) (k : A -> result B) : result B :=
  match r with
  | Ok a => k a
  | Err e => Err e
  end.

Notation "' p <- r ;; k" := (bind r (fun p => k))
  (at level 61, p pattern, r at next level, right associativity).

Definition dquote : ascii := ascii_of_N 34.
Definition backslash : ascii := ascii_of_N 92.

(** *** Printing *)

Definition hexDigit (n : N) : ascii :=
  if (n <? 10)%N then ascii_of_N (48 + n) else ascii_of_N (87 + n).

(** QuoteJSONString, one code unit. *)
Definition quoteUnit (c : ascii) : string :=
  let n := N_of_ascii c in
  if (n =? 8)%N then String backslash "b"
  else if (n =? 9)%N then String backslash "t"
  else if (n =? 10)%N then String backslash "n"
  else if (n =? 12)%N then String backslash "f"
  else if (n =? 13)%N then String backslash "r"
  else if (n =? 34)%N then String backslash (String dquote "")
  else if (n =? 92)%N then String backslash (String backslash "")
  else if (n <? 32)%N
       then String backslash
              (String "u" (String "0" (String "0"
                 (String (hexDigit (n / 16)) (String (hexDigit (n mod 16)) "")))))
       else String c "".

Fixpoint quoteBody (s : string) : string :=
  match s with
  | EmptyString => EmptyString
  | String c s' => quoteUnit c ++ quoteBody s'
  end.

Definition quote (s : string) : string :=
  String dquote (quoteBody s ++ String dquote "").

(** The text after the first item of a comma-separated sequence. *)
Fixpoint commaTail (items : list string) : string :=
  match items with
  | [] => ""
  | x :: items' => "," ++ x ++ commaTail items'
  end.

Definition commaSeparated (items : list string) : string :=
  match items with
  | [] => ""
  | x :: items' => x ++ commaTail items'
  end.

(** [JSON.stringify] without indentation. *)
Fixpoint stringify (v : value) : string :=
  match v with
  | Null => "null"
  | Bool true => "true"
  | Bool false => "false"
  | Number numeral => numeral
  | Str s => quote s
  | Array elements =>
      "[" ++ commaSeparated (map stringify elements) ++ "]"
  | Object members =>
      "{" ++ commaSeparated
               (map (fun m => match m with
                              | (k, x) => quote k ++ ":" ++ stringify x
                              end) members) ++ "}"
  end.

(** Values without numbers: strings, literals, and arrays and objects of
    such. *)
Fixpoint plain (v : value) : bool :=
  match v with
  | Number _ => false
  | Array elements => forallb plain elements
  | Object members =>
      forallb (fun m => match m with (_, x) => plain x end) members
  | _ => true
  end.

(** *** Parsing *)

(** JSON white space: TAB, LF, CR, SP. *)
Definition isWs (c : ascii) : bool :=
  let n := N_of_ascii c in
  ((n =? 9) || (n =? 10) || (n =? 13) || (n =? 32))%N.

Fixpoint skipWs (s : string) : string :=
  match s with
  | EmptyString => EmptyString
  | String c s' => if isWs c then skipWs s' else s
  end.

Definition hexValue (c : ascii) : option N :=
  let n := N_of_ascii c in
  if ((48 <=? n) && (n <=? 57))%N then Some (n - 48)%N
  else if ((97 <=? n) && (n <=? 102))%N then Some (n - 87)%N
  else if ((65 <=? n) && (n <=? 70))%N then Some (n - 55)%N
  else None.

(** The code unit of a four-digit hexadecimal escape. *)
Definition unicodeEscape (a b c d : ascii) : result ascii :=
  match hexValue a, hexValue b, hexValue c, hexValue d with
  | Some x, Some y, Some z, Some w =>
      if ((x =? 0) && (y =? 0))%N
      then Ok (ascii_of_N (16 * z + w))
      else Err Beyond
  | _, _, _, _ => Err SyntaxError
  end.

(** The characters of a string literal after its opening quote, up to
    and including the closing quote. *)
Fixpoint parseChars (s : string) : result (string * string) :=
  match s with
  | EmptyString => Err SyntaxError
  | String c s' =>
      if (N_of_ascii c =? 34)%N then Ok (EmptyString, s')
      else if (N_of_ascii c =? 92)%N then
        match s' with
        | EmptyString => Err SyntaxError
        | String e s'' =>
            let simple (u : N) :=
              ' (str, rest) <- parseChars s'' ;;
              Ok (String (ascii_of_N u) str, rest) in
            let n := N_of_ascii e in
            if (n =? 34)%N then simple 34%N
            else if (n =? 92)%N then simple 92%N
            else if (n =? 47)%N then simple 47%N
            else if (n =? 98)%N then simple 8%N
            else if (n =? 102)%N then simple 12%N
            else if (n =? 110)%N then simple 10%N
            else if (n =? 114)%N then simple 13%N
            else if (n =? 116)%N then simple 9%N
            else if (n =? 117)%N then
              match s'' with
              | String a (String b (String c' (String d s4))) =>
                  ' u <- unicodeEscape a b c' d ;;
                  ' (str, rest) <- parseChars s4 ;;
                  Ok (String u str, rest)
              | _ => Err SyntaxError
              end
            else Err SyntaxError
        end
      else if (N_of_ascii c <? 32)%N then Err SyntaxError
      else
        ' (str, rest) <- parseChars s' ;;
        Ok (String c str, rest)
  end.

(** [s] without its prefix [p], when it begins with [p]. *)
Fixpoint stripPrefix (p s : string) : option string :=
  match p with
  | EmptyString => Some s
  | String a p' =>
      match s with
      | String b s' => if (a =? b)%char then stripPrefix p' s' else None
      | EmptyString => None
      end
  end.

Definition isDigit (c : ascii) : bool :=
  let n := N_of_ascii c in ((48 <=? n) && (n <=? 57))%N.

(** The longest prefix of digits, and what follows it. *)
Fixpoint digits (s : string) : string * string :=
  match s with
  | EmptyString => (EmptyString, EmptyString)
  | String c s' =>
      if isDigit c
      then let (ds, rest) := digits s' in (String c ds, rest)
      else (EmptyString, s)
  end.

(** One or more digits. *)
Definition digits1 (s : string) : option (string * string) :=
  match digits s with
  | (EmptyString, _) => None
  | r => Some r
  end.

(** The integer part: [0], or a non-zero digit followed by digits. *)
Definition intPart (s : string) : option (string * string) :=
  match s with
  | String c s' =>
      if (N_of_ascii c =? 48)%N then Some (String c "", s')
      else if isDigit c
           then let (ds, rest) := digits s' in Some (String c ds, rest)
           else None
  | EmptyString => None
  end.

Definition fracPart (s : string) : option (string * string) :=
  match stripPrefix "." s with
  | Some s' =>
      match digits1 s' with
      | Some (ds, rest) => Some (String "." ds, rest)
      | None => None
      end
  | None => Some (EmptyString, s)
  end.

Definition expPart (s : string) : option (string * string) :=
  match s with
  | String c s' =>
      if ((N_of_ascii c =? 101) || (N_of_ascii c =? 69))%N then
        match s' with
        | String g s'' =>
            if ((N_of_ascii g =? 43) || (N_of_ascii g =? 45))%N then
              match digits1 s'' with
              | Some (ds, rest) => Some (String c (String g ds), rest)
              | None => None
              end
            else
              match digits1 s' with
              | Some (ds, rest) => Some (String c ds, rest)
              | None => None
              end
        | EmptyString => None
        end
      else Some (EmptyString, s)
  | EmptyString => Some (EmptyString, s)
  end.

(** A JSON number: its numeral and what follows it. *)
Definition parseNumber (s : string) : result (string * string) :=
  let (sign, s1) :=
    match stripPrefix "-" s with
    | Some s' => ("-", s')
    | None => ("", s)
    end in
  match intPart s1 with
  | None => Err SyntaxError
  | Some (i, s2) =>
      match fracPart s2 with
      | None => Err SyntaxError
      | Some (f, s3) =>
          match expPart s3 with
          | None => Err SyntaxError
          | Some (e, s4) => Ok (sign ++ i ++ f ++ e, s4)
          end
      end
  end.

(** The punctuation [c] after optional white space. *)
Definition token (c : ascii) (s : string) : option string :=
  stripPrefix (String c "") (skipWs s).

(** A member [key : value] of an object, given the parser of values. *)
Definition parseMemberWith
    (parseValue : string -> result (value * string)) (s : string)
  : result ((string * value) * string) :=
  match token dquote s with
  | Some s1 =>
      ' (k, s2) <- parseChars s1 ;;
      match token ":" s2 with
      | Some s3 =>
          ' (x, s4) <- parseValue s3 ;;
          Ok ((k, x), s4)
      | None => Err SyntaxError
      end
  | None => Err SyntaxError
  end.

(** The literals [null], [true] and [false], or else a number. *)
Definition parseScalar (s : string) : result (value * string) :=
  match stripPrefix "null" s with
  | Some rest => Ok (Null, rest)
  | None =>
      match stripPrefix "true" s with
      | Some rest => Ok (Bool true, rest)
      | None =>
          match stripPrefix "false" s with
          | Some rest => Ok (Bool false, rest)
          | None =>
              ' (numeral, rest) <- parseNumber s ;;
              Ok (Number numeral, rest)
          end
      end
  end.

(** Recursive descent.  [parseValue] reads one value after optional white
    space; [parseElements] and [parseMembers] read what follows the first
    item of an array or object, up to and including the closing bracket. *)
Fixpoint parseValue (fuel : nat) (s : string) : result (value * string) :=
  match fuel with
  | O => Err Exhausted
  | S fuel' =>
      match skipWs s with
      | EmptyString => Err SyntaxError
      | String c s' =>
          let n := N_of_ascii c in
          if (n =? 34)%N then
            ' (str, rest) <- parseChars s' ;; Ok (Str str, rest)
          else if (n =? 91)%N then
            match token "]" s' with
            | Some rest => Ok (Array [], rest)
            | None =>
                ' (x, s1) <- parseValue fuel' s' ;;
                ' (l, s2) <- parseElements fuel' s1 ;;
                Ok (Array (x :: l), s2)
            end
          else if (n =? 123)%N then
            match token "}" s' with
            | Some rest => Ok (Object [], rest)
            | None =>
                ' (m, s1) <- parseMemberWith (parseValue fuel') s' ;;
                ' (l, s2) <- parseMembers fuel' s1 ;;
                Ok (Object (m :: l), s2)
            end
          else parseScalar (String c s')
      end
  end

with parseElements (fuel : nat) (s : string) : result (list value * string) :=
  match fuel with
  | O => Err Exhausted
  | S fuel' =>
      match token "]" s with
      | Some rest => Ok ([], rest)
      | None =>
          match token "," s with
          | Some s' =>
              ' (x, s1) <- parseValue fuel' s' ;;
              ' (l, s2) <- parseElements fuel' s1 ;;
              Ok (x :: l, s2)
          | None => Err SyntaxError
          end
      end
  end

with parseMembers (fuel : nat) (s : string)
  : result (list (string * value) * string) :=
  match fuel with
  | O => Err Exhausted
  | S fuel' =>
      match token "}" s with
      | Some rest => Ok ([], rest)
      | None =>
          match token "," s with
          | Some s' =>
              ' (m, s1) <- parseMemberWith (parseValue fuel') s' ;;
              ' (l, s2) <- parseMembers fuel' s1 ;;
              Ok (m :: l, s2)
          | None => Err SyntaxError
          end
      end
  end.

(** [JSON.parse]: one value between optional white space. *)
Definition parse (s : string) : result value :=
  ' (v, rest) <- parseValue (S (String.length s)) s ;;
  match skipWs rest with
  | EmptyString => Ok v
  | String _ _ => Err SyntaxError
  end.

End JSON.

(** ** The data model *)

Module Note.
Record t : Type := mk
  { id : string;
    title : string;
    content : string;
    tags : list string;
    createdAt : string;
    updatedAt : string }.
End Note.

Notation Note := Note.t.

(** ** The component *)

Module Home.

(** The [useState] cells of the component. *)
Record State : Type := mkState
  { notes : list Note;
    searchQuery : string;
    selectedTag : option string;
    isEditing : bool;
    currentNote : option Note;
    title : string;
    content : string;
    tagInput : string;
    tags : list string }.

Definition initial : State :=
  {| notes := []; searchQuery := ""; selectedTag := None;
     isEditing := false; currentNote := None;
     title := ""; content := ""; tagInput := ""; tags := [] |}.

(** The state setters. *)
Definition setNotes (v : list Note) (st : State) : State :=
  mkState v (searchQuery st) (selectedTag st) (isEditing st)
          (currentNote st) (title st) (content st) (tagInput st) (tags st).
Definition setSearchQuery (v : string) (st : State) : State :=
  mkState (notes st) v (selectedTag st) (isEditing st)
          (currentNote st) (title st) (content st) (tagInput st) (tags st).
Definition setSelectedTag (v : option string) (st : State) : State :=
  mkState (notes st) (searchQuery st) v (isEditing st)
          (currentNote st) (title st) (content st) (tagInput st) (tags st).
Definition setIsEditing (v : bool) (st : State) : State :=
  mkState (notes st) (searchQuery st) (selectedTag st) v
          (currentNote st) (title st) (content st) (tagInput st) (tags st).
Definition setCurrentNote (v : option Note) (st : State) : State :=
  mkState (notes st) (searchQuery st) (selectedTag st) (isEditing st)
          v (title st) (content st) (tagInput st) (tags st).
Definition setTitle (v : string) (st : State) : State :=
  mkState (notes st) (searchQuery st) (selectedTag st) (isEditing st)
          (currentNote st) v (content st) (tagInput st) (tags st).
Definition setContent (v : string) (st : State) : State :=
  mkState (notes st) (searchQuery st) (selectedTag st) (isEditing st)
          (currentNote st) (title st) v (tagInput st) (tags st).
Definition setTagInput (v : string) (st : State) : State :=
  mkState (notes st) (searchQuery st) (selectedTag st) (isEditing st)
          (currentNote st) (title st) (content st) v (tags st).
Definition setTags (v : list string) (st : State) : State :=
  mkState (notes st) (searchQuery st) (selectedTag st) (isEditing st)
          (currentNote st) (title st) (content st) (tagInput st) v.

Definition createNote (st : State) : State :=
  setIsEditing true
    (setTagInput ""
       (setTags []
          (setContent "" (setTitle "" (setCurrentNote None st))))).

Definition editNote (note : Note) (st : State) : State :=
  setIsEditing true
    (setTagInput ""
       (setTags (Note.tags note)
          (setContent (Note.content note)
             (setTitle (Note.title note) (setCurrentNote (Some note) st))))).

(** [saveNote]; [now] is the reading [new Date().toISOString()] and
    [stamp] the reading [Date.now()]. *)
Definition saveNote (now : string) (stamp : Z) (st : State) : State :=
  if negb (JS.truthy (JS.trim (title st)))
     && negb (JS.truthy (JS.trim (content st)))
  then st
  else
    let st' :=
      match currentNote st with
      | Some cur =>
          setNotes
            (map (fun note =>
                    if (Note.id note =? Note.id cur)%string
                    then Note.mk (Note.id note) (title st) (content st)
                                 (tags st) (Note.createdAt note) now
                    else note)
                 (notes st))
            st
      | None =>
          let newNote :=
            Note.mk (JS.numberToString stamp) (title st) (content st)
                    (tags st) now now in
          setNotes (newNote :: notes st) st
      end in
    setCurrentNote None (setIsEditing false st').

(** [deleteNote]; [confirmed] is the answer of the confirmation prompt. *)
Definition deleteNote (confirmed : bool) (id : string) (st : State) : State :=
  if confirmed
  then setNotes
         (filter (fun note => negb (Note.id note =? id)%string) (notes st)) st
  else st.

Definition addTag (st : State) : State :=
  let tag := JS.toLowerCase (JS.trim (tagInput st)) in
  if JS.truthy tag && negb (JS.arrayIncludes (tags st) tag)
  then setTagInput "" (setTags (tags st ++ [tag])%list st)
  else st.

Definition removeTag (tag : string) (st : State) : State :=
  setTags (filter (fun t => negb (t =? tag)%string) (tags st)) st.

(** The "Back" button of the editor. *)
Definition back (st : State) : State := setIsEditing false st.

Definition handleTagInputKeyDown (key : string) (st : State) : State :=
  if (key =? "Enter")%string then addTag st else st.

(** [allTags]: the tags of all notes, each once, in code-unit order. *)
Definition allTags (st : State) : list string :=
  JS.sort JS.defaultCompare (JS.setOf (flat_map Note.tags (notes st))).

(** The button of a tag in the filter row: select it, or clear the
    selection when it is the selected one. *)
Definition toggleTag (tag : string) (st : State) : State :=
  setSelectedTag
    (match selectedTag st with
     | Some t => if (tag =? t)%string then None else Some tag
     | None => Some tag
     end) st.

(** The button "All" of the filter row. *)
Definition showAll (st : State) : State := setSelectedTag None st.

Section View.
(** [Date.parse]: the time value of a date string in milliseconds,
    [None] for an invalid date (NaN).  The parser is the platform's and
    stays a parameter. *)
Variable Date_parse : string -> option Z.

Definition getTime (s : string) : option Z := Date_parse s.

(** The comparison function of the view:
    [new Date(b.updatedAt).getTime() - new Date(a.updatedAt).getTime()]. *)
Definition byRecency (a b : Note) : option Z :=
  match getTime (Note.updatedAt b), getTime (Note.updatedAt a) with
  | Some tb, Some ta => Some (tb - ta)%Z
  | _, _ => None
  end.

Definition matchesSearch (searchQuery : string) (note : Note) : bool :=
  (searchQuery =? "")%string
  || JS.includes (JS.toLowerCase (Note.title note))
                 (JS.toLowerCase searchQuery)
  || JS.includes (JS.toLowerCase (Note.content note))
                 (JS.toLowerCase searchQuery)
  || existsb (fun tag => JS.includes (JS.toLowerCase tag)
                                     (JS.toLowerCase searchQuery))
             (Note.tags note).

Definition matchesTag (selectedTag : option string) (note : Note) : bool :=
  match selectedTag with
  | None => true
  | Some t => JS.arrayIncludes (Note.tags note) t
  end.

Definition filteredNotes (st : State) : list Note :=
  JS.sort byRecency
    (filter (fun note => matchesSearch (searchQuery st) note
                         && matchesTag (selectedTag st) note)
            (notes st)).
End View.


(** *** The screen: what is rendered, and the events it offers *)

Section Screen.
Variable Date_parse : string -> option Z.

(** The text rendered in place of the list: none while the editor is
    rendered ([isEditing]), and none when a note is visible. *)
Definition emptyState (st : State) : option string :=
  if isEditing st then None
  else
    match filteredNotes Date_parse st with
    | [] =>
        Some (if JS.truthy (searchQuery st)
                 || match selectedTag st with
                    | Some t => JS.truthy t
                    | None => false
                    end
              then "No notes found"
              else "No notes yet. Tap + to create one!")
    | _ :: _ => None
    end.

(** The events of the two screens.  A card, a delete button, a tag
    button and a remove button are named by their position in the list
    they are rendered from. *)
Inductive Event : Type :=
| ClickNew
| TypeSearch (text : string)
| ClickAll
| ClickTag (i : nat)
| ClickCard (i : nat)
| ClickDelete (i : nat) (confirmed : bool)
| ClickBack
| ClickSave (now : string) (stamp : Z)
| TypeTitle (text : string)
| TypeContent (text : string)
| TypeTagInput (text : string)
| KeyDownTagInput (key : string)
| ClickAddTag
| ClickRemoveTag (i : nat).

(** One event.  The editor is rendered when [isEditing] holds and the
    list otherwise; an event of the screen that is not rendered, or of
    an element that is not there, changes nothing. *)
Definition step (ev : Event) (st : State) : State :=
  if isEditing st then
    match ev with
    | ClickBack => back st
    | ClickSave now stamp => saveNote now stamp st
    | TypeTitle text => setTitle text st
    | TypeContent text => setContent text st
    | TypeTagInput text => setTagInput text st
    | KeyDownTagInput key => handleTagInputKeyDown key st
    | ClickAddTag => addTag st
    | ClickRemoveTag i =>
        match nth_error (tags st) i with
        | Some tag => removeTag tag st
        | None => st
        end
    | _ => st
    end
  else
    match ev with
    | ClickNew => createNote st
    | TypeSearch text => setSearchQuery text st
    | ClickAll =>
        match allTags st with
        | [] => st
        | _ :: _ => showAll st
        end
    | ClickTag i =>
        match nth_error (allTags st) i with
        | Some tag => toggleTag tag st
        | None => st
        end
    | ClickCard i =>
        match nth_error (filteredNotes Date_parse st) i with
        | Some note => editNote note st
        | None => st
        end
    | ClickDelete i confirmed =>
        match nth_error (filteredNotes Date_parse st) i with
        | Some note => deleteNote confirmed (Note.id note) st
        | None => st
        end
    | _ => st
    end.

Definition run (events : list Event) (st : State) : State :=
  fold_left (fun s ev => step ev s) events st.
End Screen.

(** *** Persistence *)

(** [localStorage]: string keys to string values. *)
Definition Storage : Type := string -> option string.

Definition getItem (key : string) (storage : Storage) : option string :=
  storage key.

Definition setItem (key value : string) (storage : Storage) : Storage :=
  fun k => if (k =? key)%string then Some value else storage k.

(** A note as a JSON value: its six properties in the order in which
    [saveNote] builds them (the update keeps that order). *)
Definition encodeNote (note : Note) : JSON.value :=
  JSON.Object
    [ ("id", JSON.Str (Note.id note));
      ("title", JSON.Str (Note.title note));
      ("content", JSON.Str (Note.content note));
      ("tags", JSON.Array (map JSON.Str (Note.tags note)));
      ("createdAt", JSON.Str (Note.createdAt note));
      ("updatedAt", JSON.Str (Note.updatedAt note)) ].

Definition encode (notes : list Note) : JSON.value :=
  JSON.Array (map encodeNote notes).

Fixpoint asStrings (l : list JSON.value) : option (list string) :=
  match l with
  | [] => Some []
  | JSON.Str s :: l' => option_map (cons s) (asStrings l')
  | _ :: _ => None
  end.

(** The note a JSON value stands for, when it has the shape of
    [encodeNote]. *)
Definition asNote (v : JSON.value) : option Note :=
  match v with
  | JSON.Object
      [ (k1, JSON.Str i); (k2, JSON.Str t); (k3, JSON.Str c);
        (k4, JSON.Array ts); (k5, JSON.Str ca); (k6, JSON.Str ua) ] =>
      if ((k1 =? "id") && (k2 =? "title") && (k3 =? "content")
          && (k4 =? "tags") && (k5 =? "createdAt")
          && (k6 =? "updatedAt"))%string
      then option_map (fun l => Note.mk i t c l ca ua) (asStrings ts)
      else None
  | _ => None
  end.

Fixpoint asNoteList (l : list JSON.value) : option (list Note) :=
  match l with
  | [] => Some []
  | v :: l' =>
      match asNote v, asNoteList l' with
      | Some n, Some ns => Some (n :: ns)
      | _, _ => None
      end
  end.

Definition asNotes (v : JSON.value) : option (list Note) :=
  match v with
  | JSON.Array l => asNoteList l
  | _ => None
  end.

(** The second effect: write the collection under the key [notes]. *)
Definition persist (notes : list Note) (storage : Storage) : Storage :=
  setItem "notes" (JSON.stringify (encode notes)) storage.

(** The first effect: the value handed to [setNotes], [None] when the
    effect leaves the state as it is, or the exception it raises. *)
Definition load (storage : Storage) : JSON.result (option JSON.value) :=
  match getItem "notes" storage with
  | Some saved =>
      if JS.truthy saved
      then JSON.bind (JSON.parse saved) (fun v => JSON.Ok (Some v))
      else JSON.Ok None
  | None => JSON.Ok None
  end.

End Home.

(** ** A date parser for the format of [toISOString]

    [YYYY-MM-DDTHH:mm:ss.sssZ], the only format the component writes; it
    instantiates the parameter [Date_parse] in examples. *)

Module IsoDate.

Fixpoint number (acc : Z) (s : string) : option Z :=
  match s with
  | EmptyString => Some acc
  | String c s' =>
      if JSON.isDigit c
      then number (10 * acc + Z.of_N (N_of_ascii c - 48)) s'
      else None
  end.

Definition field (start len : nat) (s : string) : option Z :=
  number 0 (String.substring start len s).

Definition isLeap (y : Z) : bool :=
  ((y mod 4 =? 0) && (negb (y mod 100 =? 0) || (y mod 400 =? 0)))%Z.

Definition daysInMonth (y m : Z) : Z :=
  if (m =? 2)%Z then (if isLeap y then 29 else 28)%Z
  else if ((m =? 4) || (m =? 6) || (m =? 9) || (m =? 11))%Z then 30%Z
  else 31%Z.

(** Days from 1970-01-01 to the civil date [y]-[m]-[d]. *)
Definition daysFromCivil (y m d : Z) : Z :=
  let y' := (if m <=? 2 then y - 1 else y)%Z in
  let era := (y' / 400)%Z in
  let yoe := (y' - era * 400)%Z in
  let mp := ((m + 9) mod 12)%Z in
  let doy := ((153 * mp + 2) / 5 + d - 1)%Z in
  let doe := (yoe * 365 + yoe / 4 - yoe / 100 + doy)%Z in
  (era * 146097 + doe - 719468)%Z.

Definition separators (s : string) : bool :=
  match String.get 4 s, String.get 7 s, String.get 10 s, String.get 13 s,
        String.get 16 s, String.get 19 s, String.get 23 s with
  | Some a, Some b, Some c, Some d, Some e, Some f, Some g =>
      ((a =? "-") && (b =? "-") && (c =? "T") && (d =? ":")
       && (e =? ":") && (f =? ".") && (g =? "Z"))%char
  | _, _, _, _, _, _, _ => false
  end.

Definition parse (s : string) : option Z :=
  if negb ((String.length s =? 24)%nat && separators s) then None
  else
    match field 0 4 s, field 5 2 s, field 8 2 s, field 11 2 s,
          field 14 2 s, field 17 2 s, field 20 3 s with
    | Some y, Some m, Some d, Some h, Some mi, Some sec, Some ms =>
        if ((1 <=? m) && (m <=? 12) && (1 <=? d) && (d <=? daysInMonth y m)
            && (h <=? 23) && (mi <=? 59) && (sec <=? 59))%Z
        then Some ((((daysFromCivil y m d * 24 + h) * 60 + mi) * 60 + sec)
                     * 1000 + ms)%Z
        else None
    | _, _, _, _, _, _, _ => None
    end.

End IsoDate.

(** ** The search test on strings beyond Latin-1

    The same lines of the view, on strings of 16-bit code units.  The
    lower-casing is the platform's on the code units below 256 and the
    three Greek sigmas, U+03A3, U+03C3 and U+03C2: there the capital
    sigma becomes the final sigma at the end of a word (Final_Sigma of
    the Unicode special casing).  Other code units are left as they
    are. *)

Module Wide.

Definition ustring : Type := list N.

(** Cased letters of the range. *)
Definition cased (c : N) : bool :=
  (((65 <=? c) && (c <=? 90)) || ((97 <=? c) && (c <=? 122))
   || (c =? 170) || (c =? 181) || (c =? 186)
   || ((192 <=? c) && (c <=? 214)) || ((216 <=? c) && (c <=? 246))
   || ((248 <=? c) && (c <=? 255))
   || (c =? 931) || (c =? 962) || (c =? 963))%N.

(** Case-ignorable characters of the range. *)
Definition caseIgnorable (c : N) : bool :=
  ((c =? 39) || (c =? 46) || (c =? 58) || (c =? 94) || (c =? 96)
   || (c =? 168) || (c =? 173) || (c =? 175) || (c =? 180) || (c =? 183)
   || (c =? 184))%N.

(** Case-ignorable characters, then a cased letter. *)
Fixpoint followedByCased (s : ustring) : bool :=
  match s with
  | [] => false
  | c :: s' => if caseIgnorable c then followedByCased s' else cased c
  end.

Definition lowerUnit (c : N) : N :=
  if (((65 <=? c) && (c <=? 90))
      || ((192 <=? c) && (c <=? 222) && negb (c =? 215)))%N
  then (c + 32)%N
  else c.

(** Lower-casing from a position; [afterCased] tells that a cased letter
    and then only case-ignorable characters precede it. *)
Fixpoint lowerFrom (afterCased : bool) (s : ustring) : ustring :=
  match s with
  | [] => []
  | c :: s' =>
      (if (c =? 931)%N
       then (if afterCased && negb (followedByCased s') then 962%N else 963%N)
       else lowerUnit c)
      :: lowerFrom (if caseIgnorable c then afterCased else cased c) s'
  end.

(** [String.prototype.toLowerCase] *)
Definition toLowerCase (s : ustring) : ustring := lowerFrom false s.

Fixpoint startsWith (s q : ustring) : bool :=
  match q, s with
  | [], _ => true
  | b :: q', a :: s' => (a =? b)%N && startsWith s' q'
  | _ :: _, [] => false
  end.

(** [String.prototype.includes] *)
Fixpoint includes (s q : ustring) : bool :=
  startsWith s q ||
  match s with
  | [] => false
  | _ :: s' => includes s' q
  end.

Fixpoint eqb (s t : ustring) : bool :=
  match s, t with
  | [], [] => true
  | a :: s', b :: t' => (a =? b)%N && eqb s' t'
  | _, _ => false
  end.

Record Note : Type := mk
  { id : ustring;
    title : ustring;
    content : ustring;
    tags : list ustring;
    createdAt : ustring;
    updatedAt : ustring }.

Definition matchesSearch (searchQuery : ustring) (note : Note) : bool :=
  eqb searchQuery []
  || includes (toLowerCase (title note)) (toLowerCase searchQuery)
  || includes (toLowerCase (content note)) (toLowerCase searchQuery)
  || existsb (fun tag => includes (toLowerCase tag) (toLowerCase searchQuery))
             (tags note).

Definition matchesTag (selectedTag : option ustring) (note : Note) : bool :=
  match selectedTag with
  | None => true
  | Some t => existsb (eqb t) (tags note)
  end.

Section View.
Variable Date_parse : ustring -> option Z.

Definition byRecency (a b : Note) : option Z :=
  match Date_parse (updatedAt b), Date_parse (updatedAt a) with
  | Some tb, Some ta => Some (tb - ta)%Z
  | _, _ => None
  end.

Definition filteredNotes (notes : list Note) (searchQuery : ustring)
           (selectedTag : option ustring) : list Note :=
  JS.sort byRecency
    (filter (fun note => matchesSearch searchQuery note
                         && matchesTag selectedTag note)
            notes).
End View.

End Wide.

(** ** What the claims speak about *)

Module Spec.

(** Empty or white-space only: nothing is left after trimming. *)
Definition blank (s : string) : Prop := JS.trim s = "".

(** The session is in the Editing state when the editor is shown. *)
Definition Editing (st : Home.State) : Prop := Home.isEditing st = true.
Definition Browsing (st : Home.State) : Prop := Home.isEditing st = false.

(** The note an update writes over [note]. *)
Definition updated (st : Home.State) (now : string) (note : Note) : Note :=
  Note.mk (Note.id note) (Home.title st) (Home.content st) (Home.tags st)
          (Note.createdAt note) now.

(** The note a creation builds. *)
Definition created (st : Home.State) (now : string) (stamp : Z) : Note :=
  Note.mk (JS.numberToString stamp) (Home.title st) (Home.content st)
          (Home.tags st) now now.

(** The normal form of a tag. *)
Definition normalize (s : string) : string := JS.toLowerCase (JS.trim s).

(** A string that does not begin with white space. *)
Definition startsClean (s : string) : Prop :=
  match s with
  | EmptyString => True
  | String c _ => JS.isWhiteSpace c = false
  end.

(** The invariant of the draft's tags: pairwise distinct, each one in
    normal form. *)
Definition tagsClean (l : list string) : Prop :=
  NoDup l /\ Forall (fun t => normalize t = t) l.

(** The user types [input] into the tag field and adds it, for each
    input in turn. *)
Definition addTags (inputs : list string) (st : Home.State) : Home.State :=
  fold_left (fun s input => Home.addTag (Home.setTagInput input s)) inputs st.

(** The capital letters below 256: A-Z, and U+00C0..U+00DE without the
    multiplication sign U+00D7. *)
Definition isCapital (c : ascii) : bool :=
  let n := N_of_ascii c in
  (((65 <=? n) && (n <=? 90))
   || ((192 <=? n) && (n <=? 222) && negb (n =? 215)))%N.

(** [u] is a capital letter and [l] its small letter, 32 code units
    above. *)
Definition capitalOf (u l : ascii) : bool :=
  isCapital u && (N_of_ascii l =? N_of_ascii u + 32)%N.

(** The same letter, in whatever case. *)
Definition sameLetter (a b : ascii) : bool :=
  (a =? b)%char || capitalOf a b || capitalOf b a.

(** Two strings that differ in the case of their letters only. *)
Fixpoint equalIgnoringCase (s t : string) : bool :=
  match s, t with
  | EmptyString, EmptyString => true
  | String a s', String b t' => sameLetter a b && equalIgnoringCase s' t'
  | _, _ => false
  end.

(** [s] contains [q] as a substring, letter case ignored. *)
Definition containsCI (s q : string) : Prop :=
  exists pre mid post,
    s = pre ++ mid ++ post /\ equalIgnoringCase mid q = true.

(** The search test as the view computes it: on the lower-cased strings. *)
Definition lowerContains (s q : string) : Prop :=
  exists pre post,
    JS.toLowerCase s = pre ++ JS.toLowerCase q ++ post.


(** All code units below 256. *)
Definition allUnits : list ascii := map ascii_of_nat (seq 0 256).



(** The outcome of a parsing step on the text [s]: a result with a
    remainder no longer than [s], or an error other than the end of the
    fuel. *)
Definition advances {A : Type} (s : string) (r : JSON.result (A * string))
  : Prop :=
  match r with
  | JSON.Ok (_, rest) => (String.length rest <= String.length s)%nat
  | JSON.Err e => e <> JSON.Exhausted
  end.

(** The collection in the store after the first effect has run on a
    store holding [before]: [None] when the value handed to [setNotes] is
    not a collection of notes. *)
Definition collectionAfterLoad (storage : Home.Storage) (before : list Note)
  : JSON.result (option (list Note)) :=
  match Home.load storage with
  | JSON.Ok None => JSON.Ok (Some before)
  | JSON.Ok (Some v) => JSON.Ok (Home.asNotes v)
  | JSON.Err e => JSON.Err e
  end.

(** No note of the collection has both a blank title and a blank
    content. *)
Definition noBlankNotes (notes : list Note) : Prop :=
  Forall (fun note => ~ (blank (Note.title note) /\ blank (Note.content note)))
         notes.

(** The tags of every note are pairwise distinct and in normal form. *)
Definition cleanNotes (notes : list Note) : Prop :=
  Forall (fun note => tagsClean (Note.tags note)) notes.

(** The identifiers of the collection are pairwise distinct. *)
Definition uniqueIds (notes : list Note) : Prop :=
  NoDup (map Note.id notes).

(** The events of the editor that work on the draft alone. *)
Definition draftOnly (ev : Home.Event) : bool :=
  match ev with
  | Home.TypeTitle _ | Home.TypeContent _ | Home.TypeTagInput _
  | Home.KeyDownTagInput _ | Home.ClickAddTag | Home.ClickRemoveTag _ => true
  | _ => false
  end.

(** Strings in ascending code-unit order. *)
Definition ascending (a b : string) : Prop := String.compare a b = Lt.

Section Recency.
Variable Date_parse : string -> option Z.

(** [a] was modified at [b]'s time or later. *)
Definition notOlder (a b : Note) : Prop :=
  exists ta tb,
    Date_parse (Note.updatedAt a) = Some ta
    /\ Date_parse (Note.updatedAt b) = Some tb
    /\ (tb <= ta)%Z.

Definition modifiedAt (t : Z) (note : Note) : bool :=
  match Date_parse (Note.updatedAt note) with
  | Some u => (u =? t)%Z
  | None => false
  end.

Definition validDates (notes : list Note) : Prop :=
  Forall (fun note => Date_parse (Note.updatedAt note) <> None) notes.

(** The time of a note's last modification is [t] or earlier. *)
Definition notAfter (t : Z) (note : Note) : Prop :=
  exists u, Date_parse (Note.updatedAt note) = Some u /\ (u <= t)%Z.

Definition before (t : Z) (note : Note) : Prop :=
  exists u, Date_parse (Note.updatedAt note) = Some u /\ (u < t)%Z.

(** Every save of the sequence carries a clock reading that is a date. *)
Definition clocksValid (events : list Home.Event) : Prop :=
  Forall (fun ev => match ev with
                    | Home.ClickSave now _ => Date_parse now <> None
                    | _ => True
                    end) events.
End Recency.

End Spec.

(** ** Sample data *)

Module Sample.

Definition t0 : string := "2024-01-01T00:00:00.000Z".
Definition t1 : string := "2024-03-05T10:20:30.400Z".
Definition t2 : string := "2024-06-01T08:00:00.000Z".

Definition groceries : Note :=
  Note.mk "1704067200000" "Groceries" "Milk, eggs" ["home"] t0 t0.
Definition meeting : Note :=
  Note.mk "1709634030400" "Meeting" "Agenda" ["work"] t1 t1.

Definition emptyStorage : Home.Storage := fun _ => None.

(** A store whose entry for the notes is not JSON text. *)
Definition brokenStorage : Home.Storage := Home.setItem "notes" "{" emptyStorage.

(** The list screen with two notes, the older one stored first. *)
Definition shelf : Home.State :=
  Home.setNotes [groceries; meeting] Home.initial.

(** An editor with one tag, and another typed into the tag field. *)
Definition tagging : Home.State :=
  Home.setTagInput " Work "
    (Home.setTags ["home"] (Home.createNote Home.initial)).

(** The editor opened on a note that the collection does not hold. *)
Definition orphan : Home.State :=
  Home.editNote meeting (Home.setNotes [groceries] Home.initial).

(** The list screen with the query [MILK] typed. *)
Definition searching : Home.State := Home.setSearchQuery "MILK" shelf.

(** The list screen with a tag selected that no note carries any more,
    the tag being the empty string. *)
Definition emptyTagSelected : Home.State :=
  Home.setSelectedTag (Some "") shelf.

(** A session: a note is written and saved, a blank one is refused and
    abandoned, the saved note is opened, tagged and saved again, and
    then deleted. *)
Definition clicks : list Home.Event :=
  [ Home.ClickNew; Home.TypeTitle "Groceries"; Home.TypeContent "Milk, eggs";
    Home.TypeTagInput " Home "; Home.KeyDownTagInput "Enter";
    Home.ClickSave t0 1704067200000;
    Home.ClickNew; Home.TypeTitle "  "; Home.ClickSave t1 1709634030400;
    Home.ClickBack;
    Home.ClickCard 0; Home.TypeTagInput "FOOD"; Home.ClickAddTag;
    Home.TypeTagInput "home"; Home.ClickAddTag; Home.ClickRemoveTag 0;
    Home.ClickSave t2 1717228800000;
    Home.TypeSearch "milk"; Home.ClickTag 0 ].

(** Typing in the editor, without saving. *)
Definition scribbles : list Home.Event :=
  [ Home.TypeTitle "Draft"; Home.TypeContent "text"; Home.TypeTagInput "x";
    Home.ClickAddTag; Home.KeyDownTagInput "a"; Home.ClickRemoveTag 0 ].

(** A note whose [updatedAt] is not a date, stored between two that
    have one. *)
Definition scrap : Note :=
  Note.mk "1" "Scrap" "no date" [] t0 "garbage".
Definition undated : Home.State :=
  Home.setNotes [groceries; scrap; meeting] Home.initial.

(** Two notes with one identifier, and the editor opened on the first
    with a new title. *)
Definition twin : Note :=
  Note.mk "1704067200000" "Copy" "Other text" ["work"] t1 t1.
Definition retitledTwins : Home.State :=
  Home.setTitle "New"
    (Home.editNote groceries (Home.setNotes [groceries; twin] Home.initial)).


(** A draft with four tags. *)
Definition fourTags : Home.State :=
  Home.setTags ["a"; "b"; "c"; "d"] (Home.createNote Home.initial).

(** A fresh editor in which only white space was typed. *)
Definition blankDraft : Home.State :=
  Home.setContent "" (Home.setTitle "   " (Home.createNote Home.initial)).

(** The editor opened on [groceries], its title and content erased. *)
Definition erased : Home.State :=
  Home.setContent "  "
    (Home.setTitle ""
       (Home.editNote groceries (Home.setNotes [groceries; meeting] Home.initial))).

(** The editor opened on [groceries] with a new title. *)
Definition retitled : Home.State :=
  Home.setTitle "  x  "
    (Home.editNote groceries (Home.setNotes [groceries; meeting] Home.initial)).

(** A new draft, saved at the very millisecond [groceries] was. *)
Definition colliding : Home.State :=
  Home.setTitle "Again"
    (Home.createNote (Home.setNotes [groceries] Home.initial)).

(** A new draft with a title padded by white space. *)
Definition padded : Home.State :=
  Home.setTitle "  x  "
    (Home.createNote (Home.setNotes [groceries] Home.initial)).

End Sample.

(** * Properties *)

(** ** The store: [saveNote] and [deleteNote] *)

Section Store.

Import Home.

Lemma saveNote_blank now stamp st :
  Spec.blank (title st) -> Spec.blank (content st) ->
  saveNote now stamp st = st.
Proof.
  unfold Spec.blank, saveNote. intros -> ->. reflexivity.
Qed.

Lemma truthy_false_iff s : JS.truthy s = false <-> s = "".
Proof.
  destruct s; simpl; split; congruence.
Qed.

Lemma guard_passes st :
  ~ (Spec.blank (title st) /\ Spec.blank (content st)) ->
  negb (JS.truthy (JS.trim (title st)))
  && negb (JS.truthy (JS.trim (content st))) = false.
Proof.
  unfold Spec.blank. intros H.
  destruct (JS.truthy (JS.trim (title st))) eqn:Ht; [reflexivity|].
  destruct (JS.truthy (JS.trim (content st))) eqn:Hc; [reflexivity|].
  exfalso. apply H. split; now apply truthy_false_iff.
Qed.

Lemma saveNote_create now stamp st :
  currentNote st = None ->
  ~ (Spec.blank (title st) /\ Spec.blank (content st)) ->
  saveNote now stamp st =
  setCurrentNote None
    (setIsEditing false (setNotes (Spec.created st now stamp :: notes st) st)).
Proof.
  intros Hc Hb. unfold saveNote. rewrite (guard_passes st Hb), Hc.
  reflexivity.
Qed.

Lemma saveNote_update now stamp st cur :
  currentNote st = Some cur ->
  ~ (Spec.blank (title st) /\ Spec.blank (content st)) ->
  saveNote now stamp st =
  setCurrentNote None
    (setIsEditing false
       (setNotes
          (map (fun note => if (Note.id note =? Note.id cur)%string
                            then Spec.updated st now note else note)
               (notes st)) st)).
Proof.
  intros Hc Hb. unfold saveNote. rewrite (guard_passes st Hb), Hc.
  reflexivity.
Qed.


Lemma back_returns_to_browsing st :
  Spec.Browsing (back st) /\ notes (back st) = notes st.
Proof.
  split; reflexivity.
Qed.

Lemma createNote_opens_empty_draft st :
  Spec.Editing (createNote st)
  /\ currentNote (createNote st) = None
  /\ title (createNote st) = "" /\ content (createNote st) = ""
  /\ tags (createNote st) = [] /\ tagInput (createNote st) = "".
Proof.
  repeat split.
Qed.

(** C1, as amended: saving a draft whose title and content are both blank
    changes nothing at all; the collection is as before, and the session
    stays in the Editing state with its draft. *)
Theorem save_blank_stays_editing now stamp st :
  Spec.Editing st ->
  Spec.blank (title st) -> Spec.blank (content st) ->
  saveNote now stamp st = st
  /\ notes (saveNote now stamp st) = notes st
  /\ Spec.Editing (saveNote now stamp st).
Proof.
  intros He Ht Hc. rewrite (saveNote_blank now stamp st Ht Hc).
  repeat split; assumption.
Qed.

Lemma save_blank_stays_editing_witness :
  Spec.Editing Sample.blankDraft
  /\ Spec.blank (title Sample.blankDraft)
  /\ Spec.blank (content Sample.blankDraft)
  /\ saveNote Sample.t1 5 Sample.blankDraft = Sample.blankDraft
  /\ notes (saveNote Sample.t1 5 Sample.blankDraft) = notes Sample.blankDraft
  /\ Spec.Editing (saveNote Sample.t1 5 Sample.blankDraft).
Proof.
  split; [reflexivity|]. split; [reflexivity|]. split; [reflexivity|].
  apply (save_blank_stays_editing Sample.t1 5 Sample.blankDraft);
    reflexivity.
Defined.

(** C1 as stated fails: in the Editing state, with a white-space title
    and an empty content, [saveNote] leaves the session in the Editing
    state instead of returning to Browsing. *)
Lemma save_blank_not_browsing :
  Spec.Editing Sample.blankDraft
  /\ Spec.blank (title Sample.blankDraft)
  /\ Spec.blank (content Sample.blankDraft)
  /\ isEditing (saveNote Sample.t1 5 Sample.blankDraft) = true
  /\ title (saveNote Sample.t1 5 Sample.blankDraft) = "   ".
Proof.
  repeat split.
Qed.

(** *** Update *)

Lemma nth_error_map_if {A} (p : A -> bool) (f : A -> A) l i x :
  nth_error l i = Some x ->
  nth_error (map (fun y => if p y then f y else y) l) i
  = Some (if p x then f x else x).
Proof.
  intros H. rewrite nth_error_map, H. reflexivity.
Qed.

Lemma saveNote_update_nth now stamp st cur i note :
  currentNote st = Some cur ->
  ~ (Spec.blank (title st) /\ Spec.blank (content st)) ->
  nth_error (notes st) i = Some note ->
  nth_error (notes (saveNote now stamp st)) i
  = Some (if (Note.id note =? Note.id cur)%string
          then Spec.updated st now note else note).
Proof.
  intros Hc Hb Hi. rewrite (saveNote_update now stamp st cur Hc Hb). simpl.
  exact (nth_error_map_if
           (fun n => (Note.id n =? Note.id cur)%string)
           (Spec.updated st now) _ _ _ Hi).
Qed.

Lemma unique_position (l : list Note) i j a b :
  NoDup (map Note.id l) ->
  nth_error l i = Some a -> nth_error l j = Some b ->
  Note.id a = Note.id b -> i = j.
Proof.
  intros Hnd Hi Hj E.
  apply (proj1 (NoDup_nth_error (map Note.id l)) Hnd).
  - rewrite length_map. apply nth_error_Some. congruence.
  - rewrite !nth_error_map, Hi, Hj. simpl. now rewrite E.
Qed.

(** C5, as amended: when the draft is bound to a note and its title and
    content are both blank, saving changes nothing.  Otherwise it rewrites
    every position holding a note with the bound identifier to that note
    with the draft's title, content and tags and [updatedAt = now],
    identifier and [createdAt] kept, and every position holding a note
    with another identifier keeps its note; when identifiers are pairwise
    distinct, that is exactly one note, and every other position is as it
    was. *)
Theorem update_replaces_matching now stamp st cur :
  currentNote st = Some cur ->
  (Spec.blank (title st) /\ Spec.blank (content st) ->
   saveNote now stamp st = st)
  /\ (~ (Spec.blank (title st) /\ Spec.blank (content st)) ->
      List.length (notes (saveNote now stamp st)) = List.length (notes st)
      /\ (forall i note,
             nth_error (notes st) i = Some note ->
             (Note.id note = Note.id cur ->
              nth_error (notes (saveNote now stamp st)) i
              = Some (Note.mk (Note.id note) (title st) (content st) (tags st)
                              (Note.createdAt note) now))
             /\ (Note.id note <> Note.id cur ->
                 nth_error (notes (saveNote now stamp st)) i = Some note))
      /\ (Spec.uniqueIds (notes st) ->
          forall i note,
            nth_error (notes st) i = Some note ->
            Note.id note = Note.id cur ->
            forall j, j <> i ->
                      nth_error (notes (saveNote now stamp st)) j
                      = nth_error (notes st) j)).
Proof.
  intros Hc. split.
  { intros [Ht Hb]. exact (saveNote_blank now stamp st Ht Hb). }
  intros Hb. split; [|split].
  - rewrite (saveNote_update now stamp st cur Hc Hb). simpl.
    apply length_map.
  - intros i note Hi.
    rewrite (saveNote_update_nth now stamp st cur i note Hc Hb Hi).
    split; intros Hid.
    + apply String.eqb_eq in Hid. rewrite Hid. reflexivity.
    + apply String.eqb_neq in Hid. rewrite Hid. reflexivity.
  - intros Hu i note Hi Hid j Hne.
    destruct (nth_error (notes st) j) as [other|] eqn:Hj.
    + rewrite (saveNote_update_nth now stamp st cur j other Hc Hb Hj).
      destruct (Note.id other =? Note.id cur)%string eqn:E; [|reflexivity].
      apply String.eqb_eq in E. exfalso. apply Hne.
      apply (unique_position (notes st) j i other note Hu Hj Hi). congruence.
    + rewrite (saveNote_update now stamp st cur Hc Hb). simpl.
      now rewrite nth_error_map, Hj.
Qed.

Lemma update_replaces_matching_witness :
  currentNote Sample.retitled = Some Sample.groceries
  /\ ~ (Spec.blank (title Sample.retitled)
        /\ Spec.blank (content Sample.retitled))
  /\ Spec.uniqueIds (notes Sample.retitled)
  /\ List.length (notes (saveNote Sample.t2 7 Sample.retitled)) = 2%nat
  /\ nth_error (notes (saveNote Sample.t2 7 Sample.retitled)) 0
     = Some (Note.mk "1704067200000" "  x  " "Milk, eggs" ["home"]
                     Sample.t0 Sample.t2)
  /\ nth_error (notes (saveNote Sample.t2 7 Sample.retitled)) 1
     = Some Sample.meeting.
Proof.
  assert (Hc : currentNote Sample.retitled = Some Sample.groceries)
    by reflexivity.
  assert (Hb : ~ (Spec.blank (title Sample.retitled)
                  /\ Spec.blank (content Sample.retitled)))
    by (intros [H _]; vm_compute in H; discriminate H).
  assert (Hu : Spec.uniqueIds (notes Sample.retitled)).
  { repeat constructor; simpl; intuition discriminate. }
  split; [exact Hc|]. split; [exact Hb|]. split; [exact Hu|].
  destruct (update_replaces_matching Sample.t2 7 _ _ Hc) as [_ Hupd].
  destruct (Hupd Hb) as [Hlen [Hnth Hrest]].
  split; [exact Hlen|]. split.
  - destruct (Hnth 0%nat Sample.groceries eq_refl) as [H0 _].
    exact (H0 eq_refl).
  - rewrite (Hrest Hu 0%nat Sample.groceries eq_refl eq_refl 1%nat);
      [reflexivity|discriminate].
Defined.

(** C5 as stated fails twice.  With a blank title and content the bound
    note keeps its title and [updatedAt].  And where a second note has the
    identifier of the bound one, saving rewrites that other note too: its
    title, content and tags are lost. *)
Lemma update_blank_not_replaced :
  currentNote Sample.erased = Some Sample.groceries
  /\ In Sample.groceries (notes Sample.erased)
  /\ title Sample.erased = ""
  /\ notes (saveNote Sample.t2 7 Sample.erased)
     = [Sample.groceries; Sample.meeting]
  /\ Note.title Sample.groceries = "Groceries"
  /\ Note.updatedAt Sample.groceries = Sample.t0
  /\ currentNote Sample.retitledTwins = Some Sample.groceries
  /\ notes Sample.retitledTwins = [Sample.groceries; Sample.twin]
  /\ Note.title Sample.twin = "Copy"
  /\ notes (saveNote Sample.t2 7 Sample.retitledTwins)
     = [ Note.mk "1704067200000" "New" "Milk, eggs" ["home"]
                 Sample.t0 Sample.t2;
         Note.mk "1704067200000" "New" "Milk, eggs" ["home"]
                 Sample.t1 Sample.t2 ].
Proof.
  repeat split. left. reflexivity.
Qed.

(** *** Create *)

Lemma to_int_not_nil z :
  Z.to_int z <> Decimal.Pos Decimal.Nil
  /\ Z.to_int z <> Decimal.Neg Decimal.Nil.
Proof.
  destruct z as [|p|p]; simpl; split; try discriminate;
    intros H; injection H as H;
    pose proof (DecimalPos.Unsigned.to_uint_nonnil p) as Hn;
    contradiction.
Qed.

Lemma numberToString_inj z z' :
  JS.numberToString z = JS.numberToString z' -> z = z'.
Proof.
  unfold JS.numberToString. intros H.
  apply DecimalZ.to_int_inj.
  destruct (to_int_not_nil z) as [Hp Hn].
  destruct (to_int_not_nil z') as [Hp' Hn'].
  pose proof (NilZero.isi _ Hp Hn) as E.
  pose proof (NilZero.isi _ Hp' Hn') as E'.
  rewrite H in E. rewrite E in E'. now injection E'.
Qed.

(** C6, as amended: a save without a bound note adds nothing when title
    and content are both blank; otherwise it puts in front of the
    unchanged collection a note whose identifier is the decimal numeral
    of the clock reading and whose [createdAt] and [updatedAt] are [now].
    The identifier is fresh when the existing identifiers are the
    numerals of earlier readings. *)
Theorem create_prepends_or_rejects now stamp st :
  currentNote st = None ->
  (Spec.blank (title st) /\ Spec.blank (content st) ->
   notes (saveNote now stamp st) = notes st)
  /\ (~ (Spec.blank (title st) /\ Spec.blank (content st)) ->
      notes (saveNote now stamp st)
      = Note.mk (JS.numberToString stamp) (title st) (content st) (tags st)
                now now :: notes st
      /\ (Forall (fun note => exists z, (z < stamp)%Z
                              /\ Note.id note = JS.numberToString z)
                 (notes st) ->
          ~ In (JS.numberToString stamp) (map Note.id (notes st)))).
Proof.
  intros Hc. split.
  - intros [Ht Hb]. now rewrite (saveNote_blank now stamp st Ht Hb).
  - intros Hb. rewrite (saveNote_create now stamp st Hc Hb). simpl.
    split; [reflexivity|].
    intros Hold Hin. apply in_map_iff in Hin as [note [Hid Hnote]].
    rewrite Forall_forall in Hold.
    destruct (Hold note Hnote) as [z [Hlt Hz]].
    rewrite Hz in Hid. apply numberToString_inj in Hid. lia.
Qed.

Lemma create_prepends_or_rejects_witness :
  currentNote Sample.padded = None
  /\ notes (saveNote Sample.t1 1709634030400 Sample.padded)
     = [ Note.mk "1709634030400" "  x  " "" [] Sample.t1 Sample.t1;
         Sample.groceries ]
  /\ ~ In (JS.numberToString 1709634030400)
          (map Note.id (notes Sample.padded)).
Proof.
  assert (Hc : currentNote Sample.padded = None) by reflexivity.
  split; [exact Hc|].
  destruct (create_prepends_or_rejects Sample.t1 1709634030400 _ Hc)
    as [_ Hnew].
  destruct Hnew as [Heq Hfresh].
  - intros [H _]. vm_compute in H. discriminate H.
  - split; [exact Heq|]. apply Hfresh.
    constructor; [|constructor].
    exists 1704067200000%Z. split; [lia|reflexivity].
Defined.

(** C6 as stated fails on the freshness of the identifier: a draft saved
    at the clock reading that already named an existing note yields two
    notes with one identifier. *)
Lemma create_identifier_collides :
  currentNote Sample.colliding = None
  /\ JS.trim (title Sample.colliding) = "Again"
  /\ map Note.id (notes Sample.colliding) = ["1704067200000"]
  /\ map Note.id (notes (saveNote Sample.t1 1704067200000 Sample.colliding))
     = ["1704067200000"; "1704067200000"].
Proof.
  repeat split.
Qed.

(** *** Successful saves keep the text as typed *)

(** C10: when title and content are not both blank, the note written by
    [saveNote] carries the draft's title and content as they are; the
    trimmed strings serve the emptiness test only. *)
Theorem save_stores_verbatim now stamp st :
  ~ (Spec.blank (title st) /\ Spec.blank (content st)) ->
  match currentNote st with
  | None =>
      exists note,
        notes (saveNote now stamp st) = note :: notes st
        /\ Note.title note = title st
        /\ Note.content note = content st
  | Some cur =>
      forall i note,
        nth_error (notes st) i = Some note ->
        Note.id note = Note.id cur ->
        exists note',
          nth_error (notes (saveNote now stamp st)) i = Some note'
          /\ Note.title note' = title st
          /\ Note.content note' = content st
  end.
Proof.
  intros Hb. destruct (currentNote st) as [cur|] eqn:Hc.
  - intros i note Hi Hid.
    exists (Spec.updated st now note). split; [|split; reflexivity].
    rewrite (saveNote_update_nth now stamp st cur i note Hc Hb Hi).
    apply String.eqb_eq in Hid. now rewrite Hid.
  - exists (Spec.created st now stamp). split; [|split; reflexivity].
    now rewrite (saveNote_create now stamp st Hc Hb).
Qed.

Lemma save_stores_verbatim_witness :
  ~ (Spec.blank (title Sample.padded) /\ Spec.blank (content Sample.padded))
  /\ exists note,
       notes (saveNote Sample.t1 1709634030400 Sample.padded)
       = note :: notes Sample.padded
       /\ Note.title note = "  x  "
       /\ Note.content note = "".
Proof.
  assert (Hb : ~ (Spec.blank (title Sample.padded)
                  /\ Spec.blank (content Sample.padded)))
    by (intros [H _]; vm_compute in H; discriminate H).
  split; [exact Hb|].
  exact (save_stores_verbatim Sample.t1 1709634030400 Sample.padded Hb).
Defined.

(** *** Delete *)

Lemma filter_id {A} (p : A -> bool) l :
  Forall (fun x => p x = true) l -> filter p l = l.
Proof.
  induction 1 as [|x l Hx _ IH]; simpl; [reflexivity|].
  now rewrite Hx, IH.
Qed.

Lemma filter_idem {A} (p : A -> bool) l :
  filter p (filter p l) = filter p l.
Proof.
  apply filter_id, Forall_forall. intros x Hx.
  now apply filter_In in Hx.
Qed.

(** C8: an accepted [deleteNote] keeps, in their order, exactly the notes
    whose identifier differs from the given one; it changes nothing when
    no note has that identifier; and deleting twice gives the state that
    deleting once gives. *)
Theorem delete_removes_and_is_idempotent id st :
  notes (deleteNote true id st)
  = filter (fun note => negb (Note.id note =? id)%string) (notes st)
  /\ (forall note, In note (notes (deleteNote true id st))
                   <-> In note (notes st) /\ Note.id note <> id)
  /\ ((forall note, In note (notes st) -> Note.id note <> id) ->
      deleteNote true id st = st)
  /\ deleteNote true id (deleteNote true id st) = deleteNote true id st.
Proof.
  unfold deleteNote. simpl. split; [reflexivity|]. split; [|split].
  - intros note. rewrite filter_In, negb_true_iff, String.eqb_neq.
    reflexivity.
  - intros Habs. rewrite filter_id.
    + now destruct st.
    + apply Forall_forall. intros note Hn.
      apply negb_true_iff, String.eqb_neq. now apply Habs.
  - unfold setNotes. simpl. now rewrite filter_idem.
Qed.

Lemma delete_removes_and_is_idempotent_witness :
  (forall note, In note (notes (deleteNote true "1" Home.initial)) ->
                Note.id note <> "1")
  /\ deleteNote true "1" (deleteNote true "1" Home.initial)
     = deleteNote true "1" Home.initial.
Proof.
  destruct (delete_removes_and_is_idempotent "1" (deleteNote true "1" Home.initial))
    as [_ [Hin [Hnoop _]]].
  assert (Habs : forall note,
             In note (notes (deleteNote true "1" Home.initial)) ->
             Note.id note <> "1") by (intros note []).
  split; [exact Habs|]. exact (Hnoop Habs).
Defined.

End Store.

(** ** The draft: [addTag] *)

Section Draft.

Import Home.

Lemma lowerUnit_idem c : JS.lowerUnit (JS.lowerUnit c) = JS.lowerUnit c.
Proof.
  destruct c as [[] [] [] [] [] [] [] []]; reflexivity.
Qed.

Lemma isWhiteSpace_lowerUnit c :
  JS.isWhiteSpace (JS.lowerUnit c) = JS.isWhiteSpace c.
Proof.
  destruct c as [[] [] [] [] [] [] [] []]; reflexivity.
Qed.

Lemma toLowerCase_idem s :
  JS.toLowerCase (JS.toLowerCase s) = JS.toLowerCase s.
Proof.
  induction s as [|c s IH]; simpl; [reflexivity|].
  now rewrite lowerUnit_idem, IH.
Qed.

Lemma trimStart_toLowerCase s :
  JS.trimStart (JS.toLowerCase s) = JS.toLowerCase (JS.trimStart s).
Proof.
  induction s as [|c s IH]; simpl; [reflexivity|].
  rewrite isWhiteSpace_lowerUnit.
  destruct (JS.isWhiteSpace c); [exact IH|reflexivity].
Qed.

Lemma trimEnd_toLowerCase s :
  JS.trimEnd (JS.toLowerCase s) = JS.toLowerCase (JS.trimEnd s).
Proof.
  induction s as [|c s IH]; simpl; [reflexivity|].
  rewrite IH, isWhiteSpace_lowerUnit.
  destruct (JS.trimEnd s) as [|d r]; simpl; [|reflexivity].
  destruct (JS.isWhiteSpace c); reflexivity.
Qed.

Lemma trim_toLowerCase s :
  JS.trim (JS.toLowerCase s) = JS.toLowerCase (JS.trim s).
Proof.
  unfold JS.trim. now rewrite trimStart_toLowerCase, trimEnd_toLowerCase.
Qed.

Lemma trimEnd_idem s : JS.trimEnd (JS.trimEnd s) = JS.trimEnd s.
Proof.
  induction s as [|c s IH]; simpl; [reflexivity|].
  destruct (JS.trimEnd s) as [|d r] eqn:E.
  - destruct (JS.isWhiteSpace c) eqn:W; simpl; [reflexivity|].
    now rewrite W.
  - change (JS.trimEnd (String c (String d r))) with
      (match JS.trimEnd (String d r) with
       | EmptyString =>
           if JS.isWhiteSpace c then EmptyString else String c EmptyString
       | r0 => String c r0
       end).
    rewrite IH. reflexivity.
Qed.

Lemma trimStart_clean s : Spec.startsClean (JS.trimStart s).
Proof.
  induction s as [|c s IH]; simpl; [exact I|].
  destruct (JS.isWhiteSpace c) eqn:W; [exact IH|exact W].
Qed.

Lemma trimStart_of_clean s : Spec.startsClean s -> JS.trimStart s = s.
Proof.
  destruct s as [|c s]; simpl; [reflexivity|]. now intros ->.
Qed.

Lemma trimEnd_clean s : Spec.startsClean s -> Spec.startsClean (JS.trimEnd s).
Proof.
  destruct s as [|c s]; simpl; [trivial|]. intros W.
  destruct (JS.trimEnd s); [rewrite W|]; exact W.
Qed.

Lemma trim_idem s : JS.trim (JS.trim s) = JS.trim s.
Proof.
  unfold JS.trim.
  rewrite (trimStart_of_clean (JS.trimEnd (JS.trimStart s))).
  - apply trimEnd_idem.
  - apply trimEnd_clean, trimStart_clean.
Qed.

(** Nothing is left after trimming exactly when every code unit is
    white space. *)
Lemma blank_iff_whitespace_only s :
  Spec.blank s
  <-> Forall (fun c => JS.isWhiteSpace c = true) (list_ascii_of_string s).
Proof.
  unfold Spec.blank, JS.trim. split.
  - intros H. induction s as [|c s IH]; simpl; [constructor|].
    simpl in H. destruct (JS.isWhiteSpace c) eqn:W.
    + constructor; [exact W|exact (IH H)].
    + simpl in H. destruct (JS.trimEnd s); rewrite ?W in H; discriminate H.
  - intros H. induction s as [|c s IH]; [reflexivity|].
    simpl in H. apply Forall_cons_iff in H as [W H].
    simpl. rewrite W. exact (IH H).
Qed.

Lemma normalize_idem s :
  Spec.normalize (Spec.normalize s) = Spec.normalize s.
Proof.
  unfold Spec.normalize.
  now rewrite trim_toLowerCase, toLowerCase_idem, trim_idem.
Qed.

Lemma arrayIncludes_In l x : JS.arrayIncludes l x = true <-> In x l.
Proof.
  unfold JS.arrayIncludes. rewrite existsb_exists. split.
  - intros [y [Hy E]]. apply String.eqb_eq in E. now subst.
  - intros H. exists x. split; [exact H|apply String.eqb_refl].
Qed.

Lemma arrayIncludes_false l x : JS.arrayIncludes l x = false <-> ~ In x l.
Proof.
  rewrite <- arrayIncludes_In. destruct (JS.arrayIncludes l x); split;
    congruence.
Qed.

(** What one call does. *)
Lemma addTag_accepts st :
  Spec.normalize (tagInput st) <> "" ->
  ~ In (Spec.normalize (tagInput st)) (tags st) ->
  addTag st
  = setTagInput "" (setTags (tags st ++ [Spec.normalize (tagInput st)])%list st).
Proof.
  intros Hne Hnew. unfold addTag. fold (Spec.normalize (tagInput st)).
  apply arrayIncludes_false in Hnew. rewrite Hnew.
  destruct (JS.truthy (Spec.normalize (tagInput st))) eqn:T;
    [reflexivity|].
  now apply truthy_false_iff in T.
Qed.

Lemma addTag_rejects st :
  Spec.normalize (tagInput st) = ""
  \/ In (Spec.normalize (tagInput st)) (tags st) ->
  addTag st = st.
Proof.
  intros H. unfold addTag. fold (Spec.normalize (tagInput st)).
  destruct H as [H|H].
  - now rewrite H.
  - apply arrayIncludes_In in H. rewrite H.
    now rewrite andb_false_r.
Qed.

Lemma addTag_keeps_clean st :
  Spec.tagsClean (tags st) -> Spec.tagsClean (tags (addTag st)).
Proof.
  intros [Hnd Hnf].
  destruct (string_dec (Spec.normalize (tagInput st)) "") as [E|Hne].
  { rewrite addTag_rejects; [now split|now left]. }
  destruct (in_dec string_dec (Spec.normalize (tagInput st)) (tags st))
    as [Hin|Hnew].
  { rewrite addTag_rejects; [now split|now right]. }
  rewrite (addTag_accepts st Hne Hnew). simpl. split.
  - apply NoDup_rev in Hnd. rewrite <- (rev_involutive (_ ++ _)%list).
    apply NoDup_rev. rewrite rev_app_distr. simpl.
    constructor; [|exact Hnd]. now rewrite <- in_rev.
  - apply Forall_app. split; [exact Hnf|].
    constructor; [apply normalize_idem|constructor].
Qed.

Lemma addTags_keeps_clean inputs st :
  Spec.tagsClean (tags st) -> Spec.tagsClean (tags (Spec.addTags inputs st)).
Proof.
  revert st. induction inputs as [|input inputs IH]; intros st H;
    simpl; [exact H|].
  apply IH. apply addTag_keeps_clean. exact H.
Qed.

Lemma map_fixed {A} (f : A -> A) l :
  Forall (fun x => f x = x) l -> map f l = l.
Proof.
  induction 1 as [|x l Hx _ IH]; simpl; [reflexivity|].
  now rewrite Hx, IH.
Qed.

(** C9: from a draft without tags, whatever is typed and added, in any
    number of calls, the draft's tags are pairwise distinct, and remain
    so when each is trimmed and lower-cased.  One call appends the
    normalized input and empties the input field when that value is not
    empty and not yet a tag; otherwise it changes nothing. *)
Theorem addTag_no_duplicates inputs st :
  tags st = [] ->
  NoDup (tags (Spec.addTags inputs st))
  /\ NoDup (map Spec.normalize (tags (Spec.addTags inputs st)))
  /\ forall s,
       (Spec.normalize (tagInput s) <> ""
        /\ ~ In (Spec.normalize (tagInput s)) (tags s) ->
        tags (addTag s) = (tags s ++ [Spec.normalize (tagInput s)])%list
        /\ tagInput (addTag s) = "")
       /\ (Spec.normalize (tagInput s) = ""
           \/ In (Spec.normalize (tagInput s)) (tags s) ->
           addTag s = s).
Proof.
  intros Hempty.
  assert (Hclean : Spec.tagsClean (tags (Spec.addTags inputs st))).
  { apply addTags_keeps_clean. rewrite Hempty.
    split; constructor. }
  destruct Hclean as [Hnd Hnf].
  split; [exact Hnd|]. split.
  - now rewrite (map_fixed _ _ Hnf).
  - intros s. split.
    + intros [Hne Hnew]. rewrite (addTag_accepts s Hne Hnew).
      split; reflexivity.
    + apply addTag_rejects.
Qed.

Lemma addTag_no_duplicates_witness :
  tags (createNote Home.initial) = []
  /\ tags (Spec.addTags ["Home"; " home "; ""; "WORK"; "home"]
                        (createNote Home.initial))
     = ["home"; "work"]
  /\ NoDup (tags (Spec.addTags ["Home"; " home "; ""; "WORK"; "home"]
                               (createNote Home.initial))).
Proof.
  split; [reflexivity|]. split; [reflexivity|].
  apply (addTag_no_duplicates ["Home"; " home "; ""; "WORK"; "home"]
           (createNote Home.initial) eq_refl).
Defined.

End Draft.

(** ** Strings *)

Section Strings.

Lemma append_nil_r s : s ++ "" = s.
Proof.
  induction s as [|c s IH]; simpl; [reflexivity|now rewrite IH].
Qed.

Lemma append_assoc a b c : (a ++ b) ++ c = a ++ (b ++ c).
Proof.
  induction a as [|x a IH]; simpl; [reflexivity|now rewrite IH].
Qed.

Lemma length_append a b :
  String.length (a ++ b) = (String.length a + String.length b)%nat.
Proof.
  induction a as [|x a IH]; simpl; [reflexivity|now rewrite IH].
Qed.

Lemma prefix_spec q s :
  String.prefix q s = true <-> exists post, s = q ++ post.
Proof.
  revert s. induction q as [|c q IH]; intros s.
  - destruct s; simpl; split; eauto.
  - destruct s as [|d s]; simpl.
    + split; [discriminate|]. intros [post H]. discriminate H.
    + destruct (Ascii.ascii_dec c d) as [->|Hne].
      * rewrite IH. split; intros [post H]; exists post.
        -- now rewrite H.
        -- now injection H.
      * split; [discriminate|]. intros [post H]. injection H as H1 H2.
        congruence.
Qed.

Lemma includes_nil q : JS.includes "" q = String.prefix q "".
Proof.
  unfold JS.includes. apply orb_false_r.
Qed.

Lemma includes_cons c s q :
  JS.includes (String c s) q = String.prefix q (String c s) || JS.includes s q.
Proof.
  reflexivity.
Qed.

Lemma includes_spec s q :
  JS.includes s q = true <-> exists pre post, s = pre ++ q ++ post.
Proof.
  induction s as [|c s IH].
  - rewrite includes_nil, prefix_spec. split.
    + intros [post H]. exists "", post. exact H.
    + intros [pre [post H]]. destruct pre; [now exists post|].
      discriminate H.
  - rewrite includes_cons, orb_true_iff, IH, prefix_spec. split.
    + intros [[post H]|[pre [post H]]].
      * exists "", post. exact H.
      * exists (String c pre), post. simpl. now rewrite H.
    + intros [pre [post H]]. destruct pre as [|d pre].
      * left. now exists post.
      * right. simpl in H. injection H as _ H. now exists pre, post.
Qed.

Lemma toLowerCase_append a b :
  JS.toLowerCase (a ++ b) = JS.toLowerCase a ++ JS.toLowerCase b.
Proof.
  induction a as [|x a IH]; simpl; [reflexivity|now rewrite IH].
Qed.

Lemma toLowerCase_split s a b :
  JS.toLowerCase s = a ++ b ->
  exists s1 s2,
    s = s1 ++ s2 /\ JS.toLowerCase s1 = a /\ JS.toLowerCase s2 = b.
Proof.
  revert s. induction a as [|x a IH]; intros s H.
  - exists "", s. auto.
  - destruct s as [|c s]; [discriminate H|].
    simpl in H. injection H as Hc H.
    destruct (IH s H) as [s1 [s2 [E [H1 H2]]]].
    exists (String c s1), s2. simpl. rewrite E, H1, Hc. auto.
Qed.

Lemma allUnits_complete a : In a Spec.allUnits.
Proof.
  unfold Spec.allUnits. rewrite <- (ascii_nat_embedding a).
  apply in_map, in_seq. pose proof (nat_ascii_bounded a). lia.
Qed.

Lemma sameLetter_table :
  forallb (fun a =>
             forallb (fun b =>
                        Bool.eqb (Spec.sameLetter a b)
                                 (JS.lowerUnit a =? JS.lowerUnit b)%char)
                     Spec.allUnits)
          Spec.allUnits = true.
Proof.
  vm_compute. reflexivity.
Qed.

(** Two code units are the same letter exactly when they have the same
    lower-case form. *)
Lemma sameLetter_lowerUnit a b :
  Spec.sameLetter a b = true <-> JS.lowerUnit a = JS.lowerUnit b.
Proof.
  pose proof sameLetter_table as T. rewrite forallb_forall in T.
  specialize (T a (allUnits_complete a)). rewrite forallb_forall in T.
  specialize (T b (allUnits_complete b)). apply Bool.eqb_prop in T.
  rewrite T. apply Ascii.eqb_eq.
Qed.

Lemma equalIgnoringCase_lower s :
  forall t,
    Spec.equalIgnoringCase s t = true
    <-> JS.toLowerCase s = JS.toLowerCase t.
Proof.
  induction s as [|a s IH]; intros [|b t]; simpl;
    try (split; [reflexivity + discriminate|reflexivity + discriminate]).
  rewrite andb_true_iff, sameLetter_lowerUnit, IH. split.
  - intros [-> ->]. reflexivity.
  - intros H. now injection H.
Qed.

(** The test of the view, [s.toLowerCase().includes(q.toLowerCase())],
    looks for the lower-cased query in the lower-cased string. *)
Lemma includes_lower_contains s q :
  JS.includes (JS.toLowerCase s) (JS.toLowerCase q) = true
  <-> Spec.lowerContains s q.
Proof.
  apply includes_spec.
Qed.

(** On strings of code units below 256 that test decides containment
    with letter case ignored. *)
Lemma includes_ignoring_case s q :
  JS.includes (JS.toLowerCase s) (JS.toLowerCase q) = true
  <-> Spec.containsCI s q.
Proof.
  rewrite includes_spec. unfold Spec.containsCI. split.
  - intros [pre' [post' H]].
    destruct (toLowerCase_split _ _ _ H) as [pre [rest [E [Hpre Hrest]]]].
    destruct (toLowerCase_split _ _ _ Hrest) as [mid [post [E' [Hmid _]]]].
    exists pre, mid, post. subst.
    split; [reflexivity|now apply equalIgnoringCase_lower].
  - intros [pre [mid [post [E Hmid]]]].
    apply equalIgnoringCase_lower in Hmid.
    exists (JS.toLowerCase pre), (JS.toLowerCase post).
    now rewrite E, !toLowerCase_append, Hmid.
Qed.

End Strings.

(** ** The view: [filteredNotes] *)

Section View.

Import Home.

Variable Date_parse : string -> option Z.

Notation compare := (JS.SortCompare (byRecency Date_parse)).
Notation sortNotes := (JS.sort (byRecency Date_parse)).
Notation insertNote := (JS.insert (byRecency Date_parse)).

Lemma insert_permutation (x : Note) l :
  Permutation (insertNote x l) (x :: l).
Proof.
  induction l as [|y l IH]; simpl; [reflexivity|].
  destruct (0 <? compare x y)%Z; [|reflexivity].
  rewrite IH. apply perm_swap.
Qed.

Lemma sort_permutation (l : list Note) : Permutation (sortNotes l) l.
Proof.
  induction l as [|x l IH]; simpl; [reflexivity|].
  rewrite insert_permutation. now constructor.
Qed.






(** *** Order *)

Lemma compare_valid x y tx ty :
  Date_parse (Note.updatedAt x) = Some tx ->
  Date_parse (Note.updatedAt y) = Some ty ->
  compare x y = (ty - tx)%Z.
Proof.
  intros Hx Hy. unfold JS.SortCompare, byRecency, getTime.
  now rewrite Hx, Hy.
Qed.

Lemma valid_time note :
  Date_parse (Note.updatedAt note) <> None ->
  exists t, Date_parse (Note.updatedAt note) = Some t.
Proof.
  destruct (Date_parse (Note.updatedAt note)) as [t|]; [eauto|congruence].
Qed.

Lemma insert_sorted x l :
  Date_parse (Note.updatedAt x) <> None ->
  Spec.validDates Date_parse l ->
  StronglySorted (Spec.notOlder Date_parse) l ->
  StronglySorted (Spec.notOlder Date_parse) (insertNote x l).
Proof.
  intros Hx Hv Hs. destruct (valid_time x Hx) as [tx Ex].
  induction Hs as [|y l Hs IH Hy]; simpl.
  - repeat constructor.
  - apply Forall_cons_iff in Hv as [Hvy Hv].
    destruct (valid_time y Hvy) as [ty Ey].
    rewrite (compare_valid x y tx ty Ex Ey).
    destruct (0 <? ty - tx)%Z eqn:C.
    + apply Z.ltb_lt in C. constructor; [now apply IH|].
      apply (Permutation_Forall (Permutation_sym (insert_permutation x l))).
      constructor; [|exact Hy].
      exists ty, tx. repeat split; [assumption..|lia].
    + apply Z.ltb_ge in C. constructor; [now constructor|].
      constructor.
      * exists tx, ty. repeat split; [assumption..|lia].
      * eapply Forall_impl; [|exact Hy].
        intros z [ty' [tz [Ey' [Ez Hle]]]].
        rewrite Ey in Ey'. injection Ey' as <-.
        exists tx, tz. repeat split; [assumption..|lia].
Qed.

Lemma sort_sorted l :
  Spec.validDates Date_parse l ->
  StronglySorted (Spec.notOlder Date_parse) (sortNotes l).
Proof.
  induction 1 as [|x l Hx Hv IH]; simpl; [constructor|].
  apply insert_sorted; [exact Hx| |exact IH].
  apply (Permutation_Forall (Permutation_sym (sort_permutation l))).
  exact Hv.
Qed.

(** Insertion passes only notes that are strictly more recent, so the
    notes of any one time keep their order. *)
Lemma insert_stable t x l :
  Date_parse (Note.updatedAt x) <> None ->
  Spec.validDates Date_parse l ->
  filter (Spec.modifiedAt Date_parse t) (insertNote x l)
  = filter (Spec.modifiedAt Date_parse t) (x :: l).
Proof.
  intros Hx Hv. destruct (valid_time x Hx) as [tx Ex].
  induction Hv as [|y l Hy Hv IH]; [reflexivity|].
  destruct (valid_time y Hy) as [ty Ey].
  cbn [JS.insert]. rewrite (compare_valid x y tx ty Ex Ey).
  destruct (0 <? ty - tx)%Z eqn:C; [|reflexivity].
  apply Z.ltb_lt in C.
  cbn [filter] in *. rewrite IH.
  assert (Mx : Spec.modifiedAt Date_parse t x = (tx =? t)%Z)
    by (unfold Spec.modifiedAt; now rewrite Ex).
  assert (My : Spec.modifiedAt Date_parse t y = (ty =? t)%Z)
    by (unfold Spec.modifiedAt; now rewrite Ey).
  rewrite Mx, My.
  destruct (ty =? t)%Z eqn:E1; destruct (tx =? t)%Z eqn:E2;
    try reflexivity.
  apply Z.eqb_eq in E1, E2. lia.
Qed.

Lemma sort_stable t l :
  Spec.validDates Date_parse l ->
  filter (Spec.modifiedAt Date_parse t) (sortNotes l)
  = filter (Spec.modifiedAt Date_parse t) l.
Proof.
  induction 1 as [|x l Hx Hv IH]; [reflexivity|].
  cbn [JS.sort]. rewrite insert_stable.
  - cbn [filter]. now rewrite IH.
  - exact Hx.
  - apply (Permutation_Forall (Permutation_sym (sort_permutation l))).
    exact Hv.
Qed.

Lemma modifiedAt_valid t note u :
  Date_parse (Note.updatedAt note) = Some u ->
  Spec.modifiedAt Date_parse t note = (u =? t)%Z.
Proof.
  intros E. unfold Spec.modifiedAt. now rewrite E.
Qed.

Lemma notOlder_times a b ta tb :
  Spec.notOlder Date_parse a b ->
  Date_parse (Note.updatedAt a) = Some ta ->
  Date_parse (Note.updatedAt b) = Some tb ->
  (tb <= ta)%Z.
Proof.
  intros [ta' [tb' [Ea [Eb H]]]] Ea' Eb'. congruence.
Qed.

(** The head of a sorted list is not older than any note found in it by
    the filter of a time. *)
Lemma head_not_older t x y l tx ty :
  Date_parse (Note.updatedAt x) = Some tx ->
  Date_parse (Note.updatedAt y) = Some ty ->
  StronglySorted (Spec.notOlder Date_parse) (y :: l) ->
  In x (filter (Spec.modifiedAt Date_parse t) (y :: l)) ->
  (tx <= ty)%Z.
Proof.
  intros Ex Ey Hs Hin. apply filter_In in Hin as [[->|Hin] _].
  - assert (tx = ty) by congruence. lia.
  - apply StronglySorted_inv in Hs as [_ Hall].
    rewrite Forall_forall in Hall.
    exact (notOlder_times y x ty tx (Hall x Hin) Ey Ex).
Qed.

(** Sorted most recent first, with the notes of each time in a given
    order: there is one such list. *)
Lemma sorted_stable_unique l1 :
  forall l2,
    Spec.validDates Date_parse l1 -> Spec.validDates Date_parse l2 ->
    StronglySorted (Spec.notOlder Date_parse) l1 ->
    StronglySorted (Spec.notOlder Date_parse) l2 ->
    (forall t, filter (Spec.modifiedAt Date_parse t) l1
               = filter (Spec.modifiedAt Date_parse t) l2) ->
    l1 = l2.
Proof.
  induction l1 as [|x l1 IH]; intros l2 V1 V2 S1 S2 E.
  - destruct l2 as [|y l2]; [reflexivity|].
    apply Forall_cons_iff in V2 as [Vy _].
    destruct (valid_time y Vy) as [ty Ey].
    specialize (E ty). cbn [filter] in E.
    rewrite (modifiedAt_valid ty y ty Ey), Z.eqb_refl in E. discriminate E.
  - apply Forall_cons_iff in V1 as [Vx V1].
    destruct (valid_time x Vx) as [tx Ex].
    assert (Mx : Spec.modifiedAt Date_parse tx x = true)
      by (rewrite (modifiedAt_valid tx x tx Ex); apply Z.eqb_refl).
    destruct l2 as [|y l2].
    { specialize (E tx). cbn [filter] in E. rewrite Mx in E. discriminate E. }
    apply Forall_cons_iff in V2 as [Vy V2].
    destruct (valid_time y Vy) as [ty Ey].
    assert (My : Spec.modifiedAt Date_parse ty y = true)
      by (rewrite (modifiedAt_valid ty y ty Ey); apply Z.eqb_refl).
    assert (Hxy : (tx <= ty)%Z).
    { apply (head_not_older tx x y l2 tx ty Ex Ey S2).
      rewrite <- (E tx). cbn [filter]. rewrite Mx. now left. }
    assert (Hyx : (ty <= tx)%Z).
    { apply (head_not_older ty y x l1 ty tx Ey Ex S1).
      rewrite (E ty). cbn [filter]. rewrite My. now left. }
    assert (tx = ty) by lia. subst ty.
    assert (x = y).
    { specialize (E tx). cbn [filter] in E. rewrite Mx, My in E.
      now injection E. }
    subst y. f_equal.
    apply StronglySorted_inv in S1 as [S1 _].
    apply StronglySorted_inv in S2 as [S2 _].
    apply (IH l2 V1 V2 S1 S2). intros t. specialize (E t).
    cbn [filter] in E.
    destruct (Spec.modifiedAt Date_parse t x); [now injection E|exact E].
Qed.

(** Every stable sort of notes with dates gives the list that [JS.sort]
    gives. *)
Lemma sort_canonical l r :
  Spec.validDates Date_parse l ->
  Permutation r l ->
  StronglySorted (Spec.notOlder Date_parse) r ->
  (forall t, filter (Spec.modifiedAt Date_parse t) r
             = filter (Spec.modifiedAt Date_parse t) l) ->
  r = sortNotes l.
Proof.
  intros V P S E. apply sorted_stable_unique.
  - exact (Permutation_Forall (Permutation_sym P) V).
  - exact (Permutation_Forall (Permutation_sym (sort_permutation l)) V).
  - exact S.
  - now apply sort_sorted.
  - intros t. rewrite (E t). symmetry. now apply sort_stable.
Qed.

Lemma validDates_filter p l :
  Spec.validDates Date_parse l -> Spec.validDates Date_parse (filter p l).
Proof.
  unfold Spec.validDates. rewrite !Forall_forall. intros H x Hx.
  apply filter_In in Hx as [Hx _]. now apply H.
Qed.

(** The handlers keep the dates of the collection valid: [saveNote]
    writes the clock's reading, [deleteNote] only removes. *)
Lemma saveNote_keeps_dates now stamp st :
  Date_parse now <> None ->
  Spec.validDates Date_parse (notes st) ->
  Spec.validDates Date_parse (notes (saveNote now stamp st)).
Proof.
  intros Hnow Hv. unfold saveNote.
  destruct (negb (JS.truthy (JS.trim (title st)))
            && negb (JS.truthy (JS.trim (content st)))); [exact Hv|].
  destruct (currentNote st) as [cur|]; simpl.
  - unfold Spec.validDates in *. rewrite Forall_forall in *.
    intros note Hin. apply in_map_iff in Hin as [old [<- Hold]].
    destruct (Note.id old =? Note.id cur)%string; [exact Hnow|].
    now apply Hv.
  - constructor; [exact Hnow|exact Hv].
Qed.

Lemma deleteNote_keeps_dates confirmed id st :
  Spec.validDates Date_parse (notes st) ->
  Spec.validDates Date_parse (notes (deleteNote confirmed id st)).
Proof.
  intros Hv. destruct confirmed; [|exact Hv].
  simpl. now apply validDates_filter.
Qed.

(** C4, as amended: when the [updatedAt] of every note of the collection
    is a date,
    each note of the visible list was modified no earlier than the notes
    after it, and the notes modified at one and the same time stand in
    the order in which the collection holds them. *)
Theorem visible_most_recent_first st :
  Spec.validDates Date_parse (notes st) ->
  StronglySorted (Spec.notOlder Date_parse) (filteredNotes Date_parse st)
  /\ forall t,
       filter (Spec.modifiedAt Date_parse t) (filteredNotes Date_parse st)
       = filter (Spec.modifiedAt Date_parse t)
           (filter (fun note => matchesSearch (searchQuery st) note
                                && matchesTag (selectedTag st) note)
                   (notes st)).
Proof.
  intros Hv. unfold filteredNotes. split.
  - apply sort_sorted, validDates_filter, Hv.
  - intros t. apply sort_stable, validDates_filter, Hv.
Qed.

End View.



(** C4 as stated fails on a collection with an [updatedAt] that is not a
    date: the comparison with it is NaN, the three notes stay as stored,
    and the note of January stands before the note of March. *)
Lemma visible_unsorted_without_date :
  IsoDate.parse (Note.updatedAt Sample.groceries) = Some 1704067200000%Z
  /\ IsoDate.parse (Note.updatedAt Sample.scrap) = None
  /\ IsoDate.parse (Note.updatedAt Sample.meeting) = Some 1709634030400%Z
  /\ Home.filteredNotes IsoDate.parse Sample.undated
     = [Sample.groceries; Sample.scrap; Sample.meeting].
Proof.
  repeat split.
Qed.

Lemma visible_most_recent_first_witness :
  Spec.validDates IsoDate.parse (Home.notes Sample.shelf)
  /\ Home.filteredNotes IsoDate.parse Sample.shelf
     = [Sample.meeting; Sample.groceries]
  /\ StronglySorted (Spec.notOlder IsoDate.parse)
       (Home.filteredNotes IsoDate.parse Sample.shelf).
Proof.
  assert (Hv : Spec.validDates IsoDate.parse (Home.notes Sample.shelf))
    by (repeat constructor; vm_compute; discriminate).
  split; [exact Hv|]. split; [reflexivity|].
  exact (proj1 (visible_most_recent_first IsoDate.parse Sample.shelf Hv)).
Defined.

(** ** JSON text: printing, then parsing *)

Section Json.

Import JSON.

Lemma parseChars_quoteUnit c tail :
  parseChars (quoteUnit c ++ tail)
  = ' (str, rest) <- parseChars tail ;; Ok (String c str, rest).
Proof.
  destruct c as [[] [] [] [] [] [] [] []]; reflexivity.
Qed.

Lemma parseChars_quoteBody s rest :
  parseChars (quoteBody s ++ String dquote rest) = Ok (s, rest).
Proof.
  induction s as [|c s IH]; [reflexivity|].
  cbn [quoteBody]. rewrite append_assoc, parseChars_quoteUnit, IH.
  reflexivity.
Qed.

Lemma quote_append s rest :
  quote s ++ rest = String dquote (quoteBody s ++ String dquote rest).
Proof.
  unfold quote. cbn [append]. now rewrite append_assoc.
Qed.

Lemma parseValue_string fuel t :
  parseValue (S fuel) (String dquote t)
  = ' (str, rest) <- parseChars t ;; Ok (Str str, rest).
Proof.
  reflexivity.
Qed.

Lemma parseValue_array fuel t :
  parseValue (S fuel) (String "[" t)
  = match token "]" t with
    | Some rest => Ok (Array [], rest)
    | None =>
        ' (x, s1) <- parseValue fuel t ;;
        ' (l, s2) <- parseElements fuel s1 ;;
        Ok (Array (x :: l), s2)
    end.
Proof.
  reflexivity.
Qed.

Lemma parseValue_object fuel t :
  parseValue (S fuel) (String "{" t)
  = match token "}" t with
    | Some rest => Ok (Object [], rest)
    | None =>
        ' (m, s1) <- parseMemberWith (parseValue fuel) t ;;
        ' (l, s2) <- parseMembers fuel s1 ;;
        Ok (Object (m :: l), s2)
    end.
Proof.
  reflexivity.
Qed.

Lemma parseElements_comma fuel t :
  parseElements (S fuel) (String "," t)
  = ' (x, s1) <- parseValue fuel t ;;
    ' (l, s2) <- parseElements fuel s1 ;;
    Ok (x :: l, s2).
Proof.
  reflexivity.
Qed.

Lemma parseMembers_comma fuel t :
  parseMembers (S fuel) (String "," t)
  = ' (m, s1) <- parseMemberWith (parseValue fuel) t ;;
    ' (l, s2) <- parseMembers fuel s1 ;;
    Ok (m :: l, s2).
Proof.
  reflexivity.
Qed.

(** The text of a plain value begins with none of the closing brackets
    and not with a comma. *)
Lemma token_stringify c v tail :
  plain v = true ->
  c = "]"%char \/ c = "}"%char \/ c = ","%char ->
  token c (stringify v ++ tail) = None.
Proof.
  intros Hp Hc.
  destruct v as [ | b | n | s | l | ms ]; try destruct b; try discriminate Hp;
    try rewrite quote_append;
    destruct Hc as [ -> | [ -> | -> ] ]; reflexivity.
Qed.

Lemma token_quote c s tail :
  c = "]"%char \/ c = "}"%char \/ c = ","%char ->
  token c (quote s ++ tail) = None.
Proof.
  intros Hc. apply (token_stringify c (Str s) tail eq_refl Hc).
Qed.

Lemma parseMemberWith_print pv k text :
  parseMemberWith pv (quote k ++ String ":" text)
  = ' (x, s4) <- pv text ;; Ok ((k, x), s4).
Proof.
  rewrite quote_append. unfold parseMemberWith.
  change (token dquote (String dquote (quoteBody k ++ String dquote (String ":" text))))
    with (Some (quoteBody k ++ String dquote (String ":" text))).
  cbv beta iota. rewrite parseChars_quoteBody. reflexivity.
Qed.

Lemma stringify_length_pos v :
  plain v = true -> (1 <= String.length (stringify v))%nat.
Proof.
  destruct v as [ | b | n | s | l | ms ]; try destruct b; try discriminate; intros _;
    cbn [stringify quote append String.length]; lia.
Qed.

Notation printMember :=
  (fun m : string * value =>
     match m with (k, x) => quote k ++ ":" ++ stringify x end).
Notation plainMember :=
  (fun m : string * value => match m with (_, x) => plain x end).

(** Parsing what was printed, with fuel for the length of the text. *)
Lemma parse_printed fuel :
  (forall v rest,
      plain v = true ->
      (String.length (stringify v) <= fuel)%nat ->
      parseValue fuel (stringify v ++ rest) = Ok (v, rest))
  /\ (forall l rest,
         forallb plain l = true ->
         (S (String.length (commaTail (map stringify l))) <= fuel)%nat ->
         parseElements fuel (commaTail (map stringify l) ++ String "]" rest)
         = Ok (l, rest))
  /\ (forall ms rest,
         forallb plainMember ms = true ->
         (S (String.length (commaTail (map printMember ms))) <= fuel)%nat ->
         parseMembers fuel (commaTail (map printMember ms) ++ String "}" rest)
         = Ok (ms, rest)).
Proof.
  induction fuel as [|fuel [IHv [IHe IHm]]].
  { split; [|split]; intros x rest Hp Hlen; [|lia..].
    pose proof (stringify_length_pos x Hp). lia. }
  split; [|split].
  - intros v rest Hp Hlen.
    destruct v as [ | b | n | s | l | ms ]; try destruct b;
      try discriminate Hp; try reflexivity.
    + (* string *)
      cbn [stringify]. rewrite quote_append, parseValue_string.
      now rewrite parseChars_quoteBody.
    + (* array *)
      cbn [stringify plain] in *. cbn [append]. rewrite parseValue_array.
      destruct l as [|x l]; [reflexivity|].
      cbn [map commaSeparated forallb] in *.
      apply andb_true_iff in Hp as [Hx Hl].
      cbn [append String.length] in Hlen.
      rewrite !length_append in Hlen. cbn [String.length] in Hlen.
      pose proof (stringify_length_pos x Hx) as Hpos.
      rewrite !append_assoc. cbn [append].
      rewrite (token_stringify _ x _ Hx) by auto.
      rewrite (IHv x _ Hx) by lia. cbn [bind].
      rewrite (IHe l rest Hl) by lia. reflexivity.
    + (* object *)
      cbn [stringify plain] in *. cbn [append]. rewrite parseValue_object.
      destruct ms as [|[k x] ms]; [reflexivity|].
      cbn [map commaSeparated forallb] in *.
      apply andb_true_iff in Hp as [Hx Hms].
      cbn [append String.length] in Hlen.
      rewrite !length_append in Hlen. cbn [String.length] in Hlen.
      pose proof (stringify_length_pos x Hx) as Hpos.
      rewrite !append_assoc. cbn [append].
      rewrite token_quote by auto.
      rewrite parseMemberWith_print.
      rewrite (IHv x _ Hx) by lia. cbn [bind].
      pose proof (IHm ms rest Hms) as E. cbn [append] in E, Hlen.
      rewrite E by lia. reflexivity.
  - intros l rest Hp Hlen.
    destruct l as [|x l]; [reflexivity|].
    cbn [map commaTail forallb] in *.
    apply andb_true_iff in Hp as [Hx Hl].
    cbn [append String.length] in Hlen. rewrite !length_append in Hlen.
    cbn [String.length] in Hlen.
    pose proof (stringify_length_pos x Hx) as Hpos.
    cbn [append]. rewrite parseElements_comma.
    rewrite !append_assoc.
    rewrite (IHv x _ Hx) by lia. cbn [bind].
    rewrite (IHe l rest Hl) by lia. reflexivity.
  - intros ms rest Hp Hlen.
    destruct ms as [|[k x] ms]; [reflexivity|].
    cbn [map commaTail forallb] in *.
    apply andb_true_iff in Hp as [Hx Hms].
    cbn [append String.length] in Hlen. rewrite !length_append in Hlen.
    cbn [String.length] in Hlen.
    pose proof (stringify_length_pos x Hx) as Hpos.
    cbn [append]. rewrite parseMembers_comma.
    rewrite !append_assoc. cbn [append].
    rewrite parseMemberWith_print.
    rewrite (IHv x _ Hx) by lia. cbn [bind].
    pose proof (IHm ms rest Hms) as E. cbn [append] in E, Hlen.
    rewrite E by lia. reflexivity.
Qed.

(** Every value without numbers is read back from its text. *)
Lemma parse_stringify v : plain v = true -> parse (stringify v) = Ok v.
Proof.
  intros Hp. unfold parse.
  destruct (parse_printed (S (String.length (stringify v)))) as [Hv _].
  rewrite <- (append_nil_r (stringify v)) at 2.
  rewrite (Hv v "" Hp) by lia. reflexivity.
Qed.

(** *** The parser never runs out of fuel *)

Lemma skipWs_length s : (String.length (skipWs s) <= String.length s)%nat.
Proof.
  induction s as [|c s IH]; simpl; [lia|].
  destruct (isWs c); simpl; lia.
Qed.

Lemma stripPrefix_length p s r :
  stripPrefix p s = Some r ->
  String.length s = (String.length p + String.length r)%nat.
Proof.
  revert s. induction p as [|a p IH]; intros s H; simpl in H.
  - now injection H as ->.
  - destruct s as [|b s]; [discriminate|].
    destruct (a =? b)%char; [|discriminate].
    simpl. now rewrite (IH s H).
Qed.

Lemma token_length c s r :
  token c s = Some r -> (String.length r < String.length s)%nat.
Proof.
  unfold token. intros H. apply stripPrefix_length in H.
  pose proof (skipWs_length s). simpl in H. lia.
Qed.

Lemma advances_bind {A B} s s' (r : result (A * string))
      (k : A * string -> result (B * string)) :
  Spec.advances s' r ->
  (String.length s' <= String.length s)%nat ->
  (forall a rest, (String.length rest <= String.length s')%nat ->
                  Spec.advances s (k (a, rest))) ->
  Spec.advances s (bind r k).
Proof.
  destruct r as [[a rest]|e]; simpl; intros Hr Hs Hk; [|exact Hr].
  now apply Hk.
Qed.

Lemma advances_Ok {A} s (a : A) rest :
  (String.length rest <= String.length s)%nat ->
  Spec.advances s (Ok (a, rest)).
Proof.
  intros H. exact H.
Qed.

Lemma advances_SyntaxError {A} s :
  @Spec.advances A s (Err SyntaxError).
Proof.
  discriminate.
Qed.

Lemma parseChars_advances n :
  forall s, (String.length s < n)%nat -> Spec.advances s (parseChars s).
Proof.
  induction n as [|n IH]; intros s Hn; [lia|].
  destruct s as [|c s]; [apply advances_SyntaxError|].
  cbn [parseChars]. cbn [String.length] in Hn.
  assert (Hstep : forall (t : string) (u : ascii),
             (String.length t <= String.length s)%nat ->
             Spec.advances (String c s)
               (' (str, rest) <- parseChars t ;; Ok (String u str, rest))).
  { intros t u Ht. eapply advances_bind with (s' := t).
    - apply IH. lia.
    - cbn [String.length]. lia.
    - intros str rest Hr. apply advances_Ok. cbn [String.length]. lia. }
  destruct (N_of_ascii c =? 34)%N.
  { apply advances_Ok. cbn [String.length]. lia. }
  destruct (N_of_ascii c =? 92)%N.
  2:{ destruct (N_of_ascii c <? 32)%N; [apply advances_SyntaxError|].
      apply Hstep. lia. }
  destruct s as [|e s]; [apply advances_SyntaxError|].
  cbn [String.length] in *.
  repeat match goal with
         | |- Spec.advances _ (if ?b then _ else _) =>
             destruct b; [try (apply Hstep; lia)|]
         end; try apply advances_SyntaxError.
  destruct s as [|a [|b [|c' [|d s4]]]]; try apply advances_SyntaxError.
  destruct (unicodeEscape a b c' d) as [u|err] eqn:U.
  - cbn [bind]. apply Hstep. cbn [String.length]. lia.
  - cbn [bind]. unfold unicodeEscape in U.
    destruct (hexValue a), (hexValue b), (hexValue c'), (hexValue d);
      try (injection U as <-; discriminate).
    destruct ((_ =? 0) && (_ =? 0))%N; [discriminate U|].
    injection U as <-. discriminate.
Qed.

Lemma digits_length s :
  (String.length (snd (digits s)) <= String.length s)%nat.
Proof.
  induction s as [|c s IH]; simpl; [lia|].
  destruct (isDigit c); [|simpl; lia].
  destruct (digits s) as [ds rest]. simpl in *. lia.
Qed.

Lemma digits1_length s ds rest :
  digits1 s = Some (ds, rest) ->
  (String.length rest <= String.length s)%nat.
Proof.
  unfold digits1. pose proof (digits_length s) as H.
  destruct (digits s) as [[|c ds'] r]; [discriminate|].
  intros E. injection E as _ <-. exact H.
Qed.

Lemma intPart_length s i rest :
  intPart s = Some (i, rest) ->
  (String.length rest <= String.length s)%nat.
Proof.
  unfold intPart. destruct s as [|c s]; [discriminate|].
  destruct (N_of_ascii c =? 48)%N.
  { intros E. injection E as _ <-. simpl. lia. }
  destruct (isDigit c); [|discriminate].
  pose proof (digits_length s) as H.
  destruct (digits s) as [ds r]. intros E. injection E as _ <-.
  simpl in *. lia.
Qed.

Lemma fracPart_length s f rest :
  fracPart s = Some (f, rest) ->
  (String.length rest <= String.length s)%nat.
Proof.
  unfold fracPart. destruct (stripPrefix "." s) as [s'|] eqn:P.
  - apply stripPrefix_length in P.
    destruct (digits1 s') as [[ds r]|] eqn:D; [|discriminate].
    apply digits1_length in D. intros E. injection E as _ <-. lia.
  - intros E. injection E as _ <-. lia.
Qed.

Lemma expPart_length s e rest :
  expPart s = Some (e, rest) ->
  (String.length rest <= String.length s)%nat.
Proof.
  unfold expPart. destruct s as [|c s].
  { intros E. injection E as _ <-. lia. }
  destruct ((N_of_ascii c =? 101) || (N_of_ascii c =? 69))%N.
  2:{ intros E. injection E as _ <-. lia. }
  destruct s as [|g s]; [discriminate|].
  destruct ((N_of_ascii g =? 43) || (N_of_ascii g =? 45))%N.
  - destruct (digits1 s) as [[ds r]|] eqn:D; [|discriminate].
    apply digits1_length in D. intros E. injection E as _ <-.
    simpl. lia.
  - destruct (digits1 (String g s)) as [[ds r]|] eqn:D; [|discriminate].
    apply digits1_length in D. intros E. injection E as _ <-.
    simpl in *. lia.
Qed.

Lemma parseNumber_advances s : Spec.advances s (parseNumber s).
Proof.
  unfold parseNumber.
  assert (Hsign : forall p : string * string,
             p = match stripPrefix "-" s with
                 | Some s' => ("-", s')
                 | None => ("", s)
                 end ->
             (String.length (snd p) <= String.length s)%nat).
  { intros p ->. destruct (stripPrefix "-" s) as [s'|] eqn:P; simpl; [|lia].
    apply stripPrefix_length in P. lia. }
  specialize (Hsign _ eq_refl).
  destruct (match stripPrefix "-" s with
            | Some s' => ("-", s')
            | None => ("", s)
            end) as [sign s1].
  simpl in Hsign.
  destruct (intPart s1) as [[i s2]|] eqn:I; [|apply advances_SyntaxError].
  apply intPart_length in I.
  destruct (fracPart s2) as [[f s3]|] eqn:F; [|apply advances_SyntaxError].
  apply fracPart_length in F.
  destruct (expPart s3) as [[e s4]|] eqn:E; [|apply advances_SyntaxError].
  apply expPart_length in E.
  apply advances_Ok. lia.
Qed.

Lemma parseScalar_advances s : Spec.advances s (parseScalar s).
Proof.
  unfold parseScalar.
  destruct (stripPrefix "null" s) as [r|] eqn:P1.
  { apply stripPrefix_length in P1. apply advances_Ok. lia. }
  destruct (stripPrefix "true" s) as [r|] eqn:P2.
  { apply stripPrefix_length in P2. apply advances_Ok. lia. }
  destruct (stripPrefix "false" s) as [r|] eqn:P3.
  { apply stripPrefix_length in P3. apply advances_Ok. lia. }
  eapply advances_bind with (s' := s).
  - apply parseNumber_advances.
  - lia.
  - intros numeral rest Hr. apply advances_Ok. exact Hr.
Qed.

Lemma advances_weaken {A} s s' (r : result (A * string)) :
  Spec.advances s' r ->
  (String.length s' <= String.length s)%nat ->
  Spec.advances s r.
Proof.
  destruct r as [[a rest]|e]; simpl; [lia|trivial].
Qed.

Lemma parseMemberWith_advances pv s :
  (forall t, (String.length t < String.length s)%nat ->
             Spec.advances t (pv t)) ->
  Spec.advances s (parseMemberWith pv s).
Proof.
  intros Hpv. unfold parseMemberWith.
  destruct (token dquote s) as [s1|] eqn:T1; [|apply advances_SyntaxError].
  apply token_length in T1.
  eapply advances_bind with (s' := s1).
  - apply (parseChars_advances (S (String.length s1))). lia.
  - lia.
  - intros k s2 H2. cbv beta iota.
    destruct (token ":" s2) as [s3|] eqn:T3; [|apply advances_SyntaxError].
    apply token_length in T3.
    eapply advances_bind with (s' := s3).
    + apply Hpv. lia.
    + lia.
    + intros x s4 H4. apply advances_Ok. lia.
Qed.

Lemma parse_advances fuel :
  (forall s, (String.length s < fuel)%nat ->
             Spec.advances s (parseValue fuel s))
  /\ (forall s, (String.length s < fuel)%nat ->
                Spec.advances s (parseElements fuel s))
  /\ (forall s, (String.length s < fuel)%nat ->
                Spec.advances s (parseMembers fuel s)).
Proof.
  induction fuel as [|fuel [IHv [IHe IHm]]].
  { repeat split; intros s H; lia. }
  split; [|split]; intros s Hlen.
  - cbn [parseValue]. pose proof (skipWs_length s) as Hws.
    destruct (skipWs s) as [|c s'] eqn:W; [apply advances_SyntaxError|].
    cbn [String.length] in Hws.
    destruct (N_of_ascii c =? 34)%N.
    { eapply advances_bind with (s' := s').
      - apply (parseChars_advances (S (String.length s'))). lia.
      - lia.
      - intros str rest Hr. apply advances_Ok. lia. }
    destruct (N_of_ascii c =? 91)%N.
    { destruct (token "]" s') as [rest|] eqn:T.
      - apply token_length in T. apply advances_Ok. lia.
      - eapply advances_bind with (s' := s').
        + apply IHv. lia.
        + lia.
        + intros x s1 H1. cbv beta iota.
          eapply advances_bind with (s' := s1).
          * apply IHe. lia.
          * lia.
          * intros l s2 H2. apply advances_Ok. lia. }
    destruct (N_of_ascii c =? 123)%N.
    { destruct (token "}" s') as [rest|] eqn:T.
      - apply token_length in T. apply advances_Ok. lia.
      - eapply advances_bind with (s' := s').
        + apply parseMemberWith_advances. intros t Ht. apply IHv. lia.
        + lia.
        + intros m s1 H1. cbv beta iota.
          eapply advances_bind with (s' := s1).
          * apply IHm. lia.
          * lia.
          * intros l s2 H2. apply advances_Ok. lia. }
    eapply advances_weaken; [apply parseScalar_advances|].
    cbn [String.length]. lia.
  - cbn [parseElements].
    destruct (token "]" s) as [rest|] eqn:T.
    { apply token_length in T. apply advances_Ok. lia. }
    destruct (token "," s) as [s'|] eqn:T'; [|apply advances_SyntaxError].
    apply token_length in T'.
    eapply advances_bind with (s' := s').
    + apply IHv. lia.
    + lia.
    + intros x s1 H1. cbv beta iota.
      eapply advances_bind with (s' := s1).
      * apply IHe. lia.
      * lia.
      * intros l s2 H2. apply advances_Ok. lia.
  - cbn [parseMembers].
    destruct (token "}" s) as [rest|] eqn:T.
    { apply token_length in T. apply advances_Ok. lia. }
    destruct (token "," s) as [s'|] eqn:T'; [|apply advances_SyntaxError].
    apply token_length in T'.
    eapply advances_bind with (s' := s').
    + apply parseMemberWith_advances. intros t Ht. apply IHv. lia.
    + lia.
    + intros m s1 H1. cbv beta iota.
      eapply advances_bind with (s' := s1).
      * apply IHm. lia.
      * lia.
      * intros l s2 H2. apply advances_Ok. lia.
Qed.

(** [parse] gives its fuel in the length of the text, and that is
    enough: it returns a value or fails with a proper error. *)
Lemma parse_never_exhausted s : parse s <> Err Exhausted.
Proof.
  unfold parse.
  destruct (parse_advances (S (String.length s))) as [Hv _].
  specialize (Hv s (Nat.lt_succ_diag_r _)).
  destruct (parseValue (S (String.length s)) s) as [[v rest]|e];
    cbn [bind].
  - destruct (skipWs rest); discriminate.
  - simpl in Hv. congruence.
Qed.

End Json.

(** ** Persistence: [load] and [persist] *)

Section Persistence.

Import Home.

Lemma plain_strings l : forallb JSON.plain (map JSON.Str l) = true.
Proof.
  induction l as [|x l IH]; [reflexivity|exact IH].
Qed.

Lemma plain_encode notes : JSON.plain (encode notes) = true.
Proof.
  unfold encode. cbn [JSON.plain].
  induction notes as [|note notes IH]; [reflexivity|].
  cbn [map forallb]. rewrite IH, andb_true_r.
  unfold encodeNote. cbn [JSON.plain forallb].
  now rewrite plain_strings.
Qed.

Lemma asStrings_Str l : asStrings (map JSON.Str l) = Some l.
Proof.
  induction l as [|x l IH]; [reflexivity|].
  cbn [map asStrings]. now rewrite IH.
Qed.

Lemma asNote_encodeNote note : asNote (encodeNote note) = Some note.
Proof.
  destruct note as [i t c ts ca ua]. unfold encodeNote, asNote.
  cbn [Note.id Note.title Note.content Note.tags Note.createdAt
       Note.updatedAt].
  rewrite asStrings_Str. reflexivity.
Qed.

(** Reading the value of a collection gives the collection: the same
    notes in the same order, field by field. *)
Lemma asNotes_encode notes : asNotes (encode notes) = Some notes.
Proof.
  unfold asNotes, encode.
  induction notes as [|note notes IH]; [reflexivity|].
  cbn [map asNoteList]. now rewrite asNote_encodeNote, IH.
Qed.

Lemma getItem_setItem key value storage :
  getItem key (setItem key value storage) = Some value.
Proof.
  unfold getItem, setItem. now rewrite String.eqb_refl.
Qed.

Lemma load_parses storage blob :
  getItem "notes" storage = Some blob ->
  blob <> "" ->
  load storage = JSON.bind (JSON.parse blob) (fun v => JSON.Ok (Some v)).
Proof.
  intros Hg Hne. unfold load. rewrite Hg.
  destruct blob; [congruence|reflexivity].
Qed.

Lemma stringify_encode_truthy notes :
  JS.truthy (JSON.stringify (encode notes)) = true.
Proof.
  reflexivity.
Qed.

(** C7: writing a collection with [persist] and reading the store with
    [load] hands back the value of that collection, which stands for the
    same notes in the same order with the same identifier, title,
    content, tags, [createdAt] and [updatedAt]. *)
Theorem persist_then_load notes before storage :
  load (persist notes storage) = JSON.Ok (Some (encode notes))
  /\ asNotes (encode notes) = Some notes
  /\ Spec.collectionAfterLoad (persist notes storage) before
     = JSON.Ok (Some notes).
Proof.
  assert (Hload : load (persist notes storage)
                  = JSON.Ok (Some (encode notes))).
  { unfold load, persist. rewrite getItem_setItem, stringify_encode_truthy.
    now rewrite (parse_stringify _ (plain_encode notes)). }
  split; [exact Hload|]. split; [apply asNotes_encode|].
  unfold Spec.collectionAfterLoad. rewrite Hload.
  now rewrite asNotes_encode.
Qed.

(** C2, as amended: with no entry, or an empty one, [load] leaves the
    collection as it is (empty at the start); a non-empty entry that
    [JSON.parse] rejects makes [load] raise the parser's exception, and
    no collection results; an entry that [JSON.parse] accepts is handed
    to the store as parsed, and the text of a collection gives that very
    collection. *)
Theorem load_outcomes storage :
  (getItem "notes" storage = None \/ getItem "notes" storage = Some "" ->
   load storage = JSON.Ok None
   /\ Spec.collectionAfterLoad storage [] = JSON.Ok (Some []))
  /\ (forall blob,
         getItem "notes" storage = Some blob -> blob <> "" ->
         JSON.parse blob = JSON.Err JSON.SyntaxError ->
         load storage = JSON.Err JSON.SyntaxError
         /\ forall before,
              Spec.collectionAfterLoad storage before
              = JSON.Err JSON.SyntaxError)
  /\ (forall blob v,
         getItem "notes" storage = Some blob ->
         JSON.parse blob = JSON.Ok v ->
         load storage = JSON.Ok (Some v))
  /\ (forall notes before,
         getItem "notes" storage = Some (JSON.stringify (encode notes)) ->
         Spec.collectionAfterLoad storage before = JSON.Ok (Some notes))
  /\ load storage <> JSON.Err JSON.Exhausted.
Proof.
  split; [|split; [|split; [|split]]].
  - intros H. unfold Spec.collectionAfterLoad, load.
    destruct H as [-> | ->]; split; reflexivity.
  - intros blob Hg Hne Hp.
    assert (Hl : load storage = JSON.Err JSON.SyntaxError)
      by (rewrite (load_parses storage blob Hg Hne), Hp; reflexivity).
    split; [exact Hl|]. intros before. unfold Spec.collectionAfterLoad.
    now rewrite Hl.
  - intros blob v Hg Hp.
    assert (Hne : blob <> "") by (intros ->; discriminate Hp).
    rewrite (load_parses storage blob Hg Hne), Hp. reflexivity.
  - intros notes before Hg.
    assert (Hne : JSON.stringify (encode notes) <> "") by discriminate.
    unfold Spec.collectionAfterLoad.
    rewrite (load_parses storage _ Hg Hne).
    rewrite (parse_stringify _ (plain_encode notes)). cbn [JSON.bind].
    now rewrite asNotes_encode.
  - unfold load. destruct (getItem "notes" storage) as [blob|];
      [|discriminate].
    destruct (JS.truthy blob); [|discriminate].
    pose proof (parse_never_exhausted blob) as H.
    destruct (JSON.parse blob) as [v|e]; cbn [JSON.bind];
      [discriminate|congruence].
Qed.

Lemma load_outcomes_witness :
  getItem "notes" Sample.brokenStorage = Some "{"
  /\ JSON.parse "{" = JSON.Err JSON.SyntaxError
  /\ load Sample.brokenStorage = JSON.Err JSON.SyntaxError
  /\ load Sample.emptyStorage = JSON.Ok None.
Proof.
  assert (Hg : getItem "notes" Sample.brokenStorage = Some "{")
    by reflexivity.
  assert (Hp : JSON.parse "{" = JSON.Err JSON.SyntaxError) by reflexivity.
  split; [exact Hg|]. split; [exact Hp|]. split.
  - destruct (load_outcomes Sample.brokenStorage) as [_ [Hbad _]].
    apply (Hbad "{" Hg); [discriminate|exact Hp].
  - destruct (load_outcomes Sample.emptyStorage) as [Habs _].
    apply Habs. left. reflexivity.
Defined.

(** C2 as stated fails: the entry [{] does not parse, and [load] raises
    the parser's exception; the application does not start with an empty
    collection. *)
Lemma load_malformed_throws :
  getItem "notes" Sample.brokenStorage = Some "{"
  /\ JSON.parse "{" = JSON.Err JSON.SyntaxError
  /\ load Sample.brokenStorage = JSON.Err JSON.SyntaxError
  /\ Spec.collectionAfterLoad Sample.brokenStorage []
     = JSON.Err JSON.SyntaxError.
Proof.
  repeat split.
Qed.

End Persistence.

(** * Further properties of the component *)

(** ** The draft's tags: [addTag], [removeTag] *)

Section DraftTags.

Import Home.

Lemma filter_app_single (p : string -> bool) l x :
  filter p (l ++ [x])%list = (filter p l ++ (if p x then [x] else []))%list.
Proof.
  rewrite filter_app. reflexivity.
Qed.

Lemma filter_differs_absent tag l :
  ~ In tag l -> filter (fun t => negb (t =? tag)%string) l = l.
Proof.
  intros Habs. apply filter_id, Forall_forall. intros t Ht.
  apply negb_true_iff, String.eqb_neq. congruence.
Qed.

(** X1: removing the tag that [addTag] has just appended gives back the tags
    the draft had. *)
Theorem addTag_then_removeTag st :
  Spec.normalize (tagInput st) <> "" ->
  ~ In (Spec.normalize (tagInput st)) (tags st) ->
  tags (removeTag (Spec.normalize (tagInput st)) (addTag st)) = tags st.
Proof.
  intros Hne Hnew. rewrite (addTag_accepts st Hne Hnew). simpl.
  rewrite filter_app_single, String.eqb_refl. simpl.
  rewrite app_nil_r. now apply filter_differs_absent.
Qed.

Lemma addTag_then_removeTag_witness :
  Spec.normalize (tagInput Sample.tagging) <> ""
  /\ ~ In (Spec.normalize (tagInput Sample.tagging)) (tags Sample.tagging)
  /\ tags (addTag Sample.tagging) = ["home"; "work"]
  /\ tags (removeTag (Spec.normalize (tagInput Sample.tagging))
                     (addTag Sample.tagging))
     = ["home"].
Proof.
  assert (Hne : Spec.normalize (tagInput Sample.tagging) <> "")
    by (vm_compute; discriminate).
  assert (Hnew : ~ In (Spec.normalize (tagInput Sample.tagging))
                      (tags Sample.tagging))
    by (vm_compute; intros [H|[]]; discriminate H).
  split; [exact Hne|]. split; [exact Hnew|]. split; [reflexivity|].
  exact (addTag_then_removeTag Sample.tagging Hne Hnew).
Defined.

Lemma filter_differs_split tag (l1 l2 : list string) :
  ~ In tag l1 -> ~ In tag l2 ->
  filter (fun t => negb (t =? tag)%string) (l1 ++ tag :: l2)%list
  = (l1 ++ l2)%list.
Proof.
  intros H1 H2. rewrite filter_app. cbn [filter].
  rewrite String.eqb_refl. cbn [negb].
  now rewrite !filter_differs_absent.
Qed.

(** X2: [removeTag] keeps, in their order, exactly the tags that differ
    from the given one: of distinct tags it takes out the one place where
    the tag stands and joins what is before and after it.  The other tags
    stay pairwise distinct, notes and tag input are as they were, a tag
    that is not there changes nothing, and removing twice is removing
    once. *)
Theorem removeTag_removes_exactly tag st :
  tags (removeTag tag st)
  = filter (fun t => negb (t =? tag)%string) (tags st)
  /\ (forall l1 l2,
         tags st = (l1 ++ tag :: l2)%list -> ~ In tag l1 -> ~ In tag l2 ->
         tags (removeTag tag st) = (l1 ++ l2)%list)
  /\ (forall t, In t (tags (removeTag tag st)) <-> In t (tags st) /\ t <> tag)
  /\ (NoDup (tags st) -> NoDup (tags (removeTag tag st)))
  /\ (~ In tag (tags st) -> removeTag tag st = st)
  /\ removeTag tag (removeTag tag st) = removeTag tag st
  /\ notes (removeTag tag st) = notes st
  /\ tagInput (removeTag tag st) = tagInput st.
Proof.
  split; [reflexivity|]. split.
  { intros l1 l2 E H1 H2. simpl. rewrite E.
    now apply filter_differs_split. }
  split; [|split; [|split; [|split; [|split]]]]; try reflexivity.
  - intros t. simpl. rewrite filter_In, negb_true_iff, String.eqb_neq.
    reflexivity.
  - intros Hnd. simpl. now apply NoDup_filter.
  - intros Habs. unfold removeTag. rewrite (filter_differs_absent _ _ Habs).
    now destruct st.
  - unfold removeTag, setTags. simpl. now rewrite filter_idem.
Qed.

Lemma removeTag_removes_exactly_witness :
  ~ In "work" (tags Sample.tagging)
  /\ removeTag "work" Sample.tagging = Sample.tagging
  /\ tags Sample.fourTags = (["a"] ++ "b" :: ["c"; "d"])%list
  /\ tags (removeTag "b" Sample.fourTags) = ["a"; "c"; "d"].
Proof.
  assert (Habs : ~ In "work" (tags Sample.tagging))
    by (vm_compute; intros [H|[]]; discriminate H).
  split; [exact Habs|].
  destruct (removeTag_removes_exactly "work" Sample.tagging)
    as [_ [_ [_ [_ [Hnoop _]]]]].
  split; [exact (Hnoop Habs)|]. split; [reflexivity|].
  destruct (removeTag_removes_exactly "b" Sample.fourTags) as [_ [Hsplit _]].
  apply (Hsplit ["a"] ["c"; "d"] eq_refl).
  - intros [H|[]]. discriminate H.
  - intros [H|[H|[]]]; discriminate H.
Defined.

(** X3: typing the same text and adding it a second time adds nothing: the
    tags are those after the first time. *)
Theorem addTag_same_input_once input st :
  tags (addTag (setTagInput input (addTag (setTagInput input st))))
  = tags (addTag (setTagInput input st)).
Proof.
  set (s1 := setTagInput input st).
  assert (Hin : tagInput s1 = input) by reflexivity.
  destruct (string_dec (Spec.normalize input) "") as [E|Hne].
  { rewrite (addTag_rejects s1) by (left; now rewrite Hin).
    assert (E1 : setTagInput input s1 = s1) by reflexivity.
    rewrite E1. now rewrite (addTag_rejects s1) by (left; now rewrite Hin). }
  destruct (in_dec string_dec (Spec.normalize input) (tags s1)) as [Hold|Hnew].
  { rewrite (addTag_rejects s1) by (right; now rewrite Hin).
    assert (E1 : setTagInput input s1 = s1) by reflexivity.
    rewrite E1. now rewrite (addTag_rejects s1) by (right; now rewrite Hin). }
  rewrite (addTag_accepts s1) by (rewrite Hin; assumption).
  rewrite addTag_rejects; [reflexivity|].
  right. simpl. rewrite ?Hin. apply in_or_app. right. now left.
Qed.

End DraftTags.

(** ** The session: [editNote], [saveNote], [deleteNote] together *)

Section Session.

Import Home.


Lemma editNote_draft note st :
  currentNote (editNote note st) = Some note
  /\ title (editNote note st) = Note.title note
  /\ content (editNote note st) = Note.content note
  /\ tags (editNote note st) = Note.tags note
  /\ notes (editNote note st) = notes st.
Proof.
  repeat split.
Qed.



(** X5: creating a note and then deleting the identifier it was given gives
    back the collection, when no note had that identifier. *)
Theorem create_then_delete_restores now stamp st :
  currentNote st = None ->
  ~ (Spec.blank (title st) /\ Spec.blank (content st)) ->
  ~ In (JS.numberToString stamp) (map Note.id (notes st)) ->
  notes (deleteNote true (JS.numberToString stamp) (saveNote now stamp st))
  = notes st.
Proof.
  intros Hc Hb Hfresh. rewrite (saveNote_create now stamp st Hc Hb). simpl.
  rewrite String.eqb_refl. simpl.
  apply filter_id, Forall_forall. intros note Hn.
  apply negb_true_iff, String.eqb_neq. intros E. apply Hfresh.
  rewrite <- E. now apply in_map.
Qed.

Lemma create_then_delete_restores_witness :
  currentNote Sample.padded = None
  /\ ~ In (JS.numberToString 1709634030400) (map Note.id (notes Sample.padded))
  /\ notes (deleteNote true "1709634030400"
              (saveNote Sample.t1 1709634030400 Sample.padded))
     = [Sample.groceries].
Proof.
  assert (Hb : ~ (Spec.blank (title Sample.padded)
                  /\ Spec.blank (content Sample.padded)))
    by (intros [H _]; vm_compute in H; discriminate H).
  assert (Hf : ~ In (JS.numberToString 1709634030400)
                    (map Note.id (notes Sample.padded)))
    by (vm_compute; intros [H|[]]; discriminate H).
  split; [reflexivity|]. split; [exact Hf|].
  exact (create_then_delete_restores Sample.t1 1709634030400 Sample.padded
           eq_refl Hb Hf).
Defined.

Lemma map_if_never {A} (p : A -> bool) (f : A -> A) l :
  Forall (fun x => p x = false) l ->
  map (fun x => if p x then f x else x) l = l.
Proof.
  induction 1 as [|x l Hx _ IH]; simpl; [reflexivity|].
  now rewrite Hx, IH.
Qed.

(** X6: saving a draft bound to a note whose identifier is no longer in the
    collection changes no note, raises nothing, and closes the editor. *)
Theorem update_of_missing_note now stamp st cur :
  currentNote st = Some cur ->
  ~ (Spec.blank (title st) /\ Spec.blank (content st)) ->
  (forall note, In note (notes st) -> Note.id note <> Note.id cur) ->
  notes (saveNote now stamp st) = notes st
  /\ Spec.Browsing (saveNote now stamp st)
  /\ currentNote (saveNote now stamp st) = None.
Proof.
  intros Hc Hb Habs. rewrite (saveNote_update now stamp st cur Hc Hb).
  split; [|split; reflexivity]. simpl.
  apply (map_if_never (fun n => (Note.id n =? Note.id cur)%string)).
  apply Forall_forall. intros note Hn. apply String.eqb_neq. now apply Habs.
Qed.

Lemma update_of_missing_note_witness :
  currentNote Sample.orphan = Some Sample.meeting
  /\ notes (saveNote Sample.t2 7 Sample.orphan) = [Sample.groceries]
  /\ Spec.Browsing (saveNote Sample.t2 7 Sample.orphan).
Proof.
  assert (Hb : ~ (Spec.blank (title Sample.orphan)
                  /\ Spec.blank (content Sample.orphan)))
    by (intros [H _]; vm_compute in H; discriminate H).
  assert (Habs : forall note, In note (notes Sample.orphan) ->
                              Note.id note <> Note.id Sample.meeting).
  { intros note [<-|[]]. vm_compute. discriminate. }
  split; [reflexivity|].
  destruct (update_of_missing_note Sample.t2 7 Sample.orphan Sample.meeting
              eq_refl Hb Habs) as [Hn [Hbr _]].
  split; [exact Hn|exact Hbr].
Defined.





End Session.

(** ** The view under the handlers *)

Section ViewAndHandlers.

Import Home.

Variable Date_parse : string -> option Z.

Notation visible := (filteredNotes Date_parse).
Notation sorted := (JS.sort (byRecency Date_parse)).
Notation passes st :=
  (fun note => matchesSearch (searchQuery st) note
               && matchesTag (selectedTag st) note).

Lemma Permutation_filter {A} (p : A -> bool) l l' :
  Permutation l l' -> Permutation (filter p l) (filter p l').
Proof.
  induction 1 as [|x l l' _ IH|x y l|l l' l'' _ IH1 _ IH2]; simpl.
  - constructor.
  - destruct (p x); [now constructor|exact IH].
  - destruct (p x), (p y); try reflexivity. apply perm_swap.
  - now transitivity (filter p l').
Qed.

Lemma StronglySorted_filter {A} (R : A -> A -> Prop) (p : A -> bool) l :
  StronglySorted R l -> StronglySorted R (filter p l).
Proof.
  induction 1 as [|x l _ IH Hx]; simpl; [constructor|].
  destruct (p x); [|exact IH]. constructor; [exact IH|].
  rewrite Forall_forall in *. intros y Hy. apply Hx.
  now apply filter_In in Hy.
Qed.

Lemma filter_comm {A} (p q : A -> bool) l :
  filter p (filter q l) = filter q (filter p l).
Proof.
  induction l as [|x l IH]; simpl; [reflexivity|].
  destruct (p x) eqn:P, (q x) eqn:Q; simpl; rewrite ?P, ?Q, IH; reflexivity.
Qed.

Lemma matchesSearch_empty note : matchesSearch "" note = true.
Proof.
  reflexivity.
Qed.

(** X8: with an empty query and no tag selected, the visible list holds
    every note of the collection, each as often as the collection does. *)
Theorem no_filter_shows_every_note st :
  searchQuery st = "" ->
  selectedTag st = None ->
  Permutation (filteredNotes Date_parse st) (notes st)
  /\ List.length (filteredNotes Date_parse st) = List.length (notes st).
Proof.
  intros Hq Ht.
  assert (P : Permutation (visible st) (notes st)).
  { unfold filteredNotes. rewrite Hq, Ht.
    rewrite (sort_permutation Date_parse).
    rewrite filter_id; [reflexivity|].
    apply Forall_forall. intros note _. reflexivity. }
  split; [exact P|]. now apply Permutation_length.
Qed.

Lemma toLowerCase_nil_iff q : JS.toLowerCase q = "" <-> q = "".
Proof.
  destruct q; simpl; split; congruence.
Qed.

Lemma matchesSearch_same_lower q q' note :
  JS.toLowerCase q' = JS.toLowerCase q ->
  matchesSearch q' note = matchesSearch q note.
Proof.
  intros E. unfold matchesSearch. rewrite E. f_equal. f_equal. f_equal.
  destruct (String.eqb_spec q' "") as [->|Hne'];
    destruct (String.eqb_spec q "") as [->|Hne]; try reflexivity.
  - exfalso. apply Hne. apply toLowerCase_nil_iff. now rewrite <- E.
  - exfalso. apply Hne'. apply toLowerCase_nil_iff. now rewrite E.
Qed.

(** X9: two queries that differ in letter case only show the same list. *)
Theorem search_ignores_case_of_query q q' st :
  JS.toLowerCase q' = JS.toLowerCase q ->
  visible (setSearchQuery q' st) = visible (setSearchQuery q st).
Proof.
  intros E. unfold filteredNotes. simpl. f_equal.
  apply filter_ext. intros note.
  now rewrite (matchesSearch_same_lower q q' note E).
Qed.

Lemma includes_trans a b c :
  JS.includes a b = true -> JS.includes b c = true -> JS.includes a c = true.
Proof.
  rewrite !includes_spec.
  intros [pre [post ->]] [pre' [post' ->]].
  exists (pre ++ pre'), (post' ++ post).
  now rewrite !append_assoc.
Qed.

Lemma includes_nil_only q : JS.includes "" q = true -> q = "".
Proof.
  rewrite includes_spec. intros [pre [post H]].
  destruct pre; [|discriminate H]. destruct q; [reflexivity|discriminate H].
Qed.

Lemma matchesSearch_narrows q q' note :
  Spec.lowerContains q' q ->
  matchesSearch q' note = true -> matchesSearch q note = true.
Proof.
  intros Hsub. apply includes_lower_contains in Hsub.
  unfold matchesSearch. rewrite !orb_true_iff, !existsb_exists.
  intros [[[H|H]|H]|[tag [Hin H]]].
  - apply String.eqb_eq in H. subst q'.
    apply includes_nil_only in Hsub.
    apply (proj1 (toLowerCase_nil_iff q)) in Hsub. subst q.
    now left; left; left.
  - left; left; right. exact (includes_trans _ _ _ H Hsub).
  - left; right. exact (includes_trans _ _ _ H Hsub).
  - right. exists tag. split; [exact Hin|].
    exact (includes_trans _ _ _ H Hsub).
Qed.

Lemma visible_narrows q q' st note :
  Spec.lowerContains q' q ->
  In note (filteredNotes Date_parse (setSearchQuery q' st)) ->
  In note (filteredNotes Date_parse (setSearchQuery q st)).
Proof.
  intros Hsub Hin. unfold filteredNotes in *. simpl in *.
  apply (Permutation_in _ (sort_permutation Date_parse _)) in Hin.
  apply (Permutation_in _ (Permutation_sym (sort_permutation Date_parse _))).
  apply filter_In in Hin as [Hn Hp]. apply filter_In. split; [exact Hn|].
  apply andb_true_iff in Hp as [Hs Ht]. apply andb_true_iff.
  split; [|exact Ht]. exact (matchesSearch_narrows q q' note Hsub Hs).
Qed.

(** X10: when the lower-cased form of a query [q] occurs in the lower-cased
    form of a query [q'], every note shown under [q'] is shown under [q].
    On strings of code units below 256 that is the case whenever [q']
    contains [q] with letter case ignored: there, typing on only narrows
    the list. *)
Theorem longer_query_narrows q q' st note :
  (Spec.lowerContains q' q ->
   In note (filteredNotes Date_parse (setSearchQuery q' st)) ->
   In note (filteredNotes Date_parse (setSearchQuery q st)))
  /\ (Spec.containsCI q' q ->
      In note (filteredNotes Date_parse (setSearchQuery q' st)) ->
      In note (filteredNotes Date_parse (setSearchQuery q st))).
Proof.
  split; intros Hsub.
  - exact (visible_narrows q q' st note Hsub).
  - apply includes_ignoring_case, includes_lower_contains in Hsub.
    exact (visible_narrows q q' st note Hsub).
Qed.

(** Sorting and filtering commute on notes with dates. *)
Lemma sort_filter p l :
  Spec.validDates Date_parse l ->
  sorted (filter p l) = filter p (sorted l).
Proof.
  intros Hv. symmetry. apply sort_canonical.
  - now apply validDates_filter.
  - apply Permutation_filter, sort_permutation.
  - apply StronglySorted_filter. now apply sort_sorted.
  - intros t. rewrite filter_comm, (sort_stable Date_parse t l Hv).
    apply filter_comm.
Qed.

(** X11: deleting takes the notes of that identifier out of the visible list
    and leaves the others where they were. *)
Theorem delete_keeps_visible_order id st :
  Spec.validDates Date_parse (notes st) ->
  visible (deleteNote true id st)
  = filter (fun note => negb (Note.id note =? id)%string) (visible st).
Proof.
  intros Hv. unfold filteredNotes. simpl.
  rewrite filter_comm. apply sort_filter. now apply validDates_filter.
Qed.

End ViewAndHandlers.

Lemma search_ignores_case_of_query_witness :
  JS.toLowerCase "MILK" = JS.toLowerCase "milk"
  /\ Home.filteredNotes IsoDate.parse (Home.setSearchQuery "MILK" Sample.shelf)
     = Home.filteredNotes IsoDate.parse (Home.setSearchQuery "milk" Sample.shelf)
  /\ Home.filteredNotes IsoDate.parse Sample.searching = [Sample.groceries].
Proof.
  split; [reflexivity|]. split; [|reflexivity].
  apply (search_ignores_case_of_query IsoDate.parse "milk" "MILK" Sample.shelf).
  reflexivity.
Defined.

Lemma no_filter_shows_every_note_witness :
  Home.searchQuery Sample.shelf = ""
  /\ Home.selectedTag Sample.shelf = None
  /\ Permutation (Home.filteredNotes IsoDate.parse Sample.shelf)
                 (Home.notes Sample.shelf).
Proof.
  split; [reflexivity|]. split; [reflexivity|].
  exact (proj1 (no_filter_shows_every_note IsoDate.parse Sample.shelf
                  eq_refl eq_refl)).
Defined.

Lemma longer_query_narrows_witness :
  Spec.lowerContains "Milk," "MILK"
  /\ Spec.containsCI "Milk," "MILK"
  /\ In Sample.groceries
        (Home.filteredNotes IsoDate.parse
           (Home.setSearchQuery "Milk," Sample.shelf))
  /\ In Sample.groceries
        (Home.filteredNotes IsoDate.parse
           (Home.setSearchQuery "MILK" Sample.shelf)).
Proof.
  assert (Hlow : Spec.lowerContains "Milk," "MILK").
  { exists "", ",". reflexivity. }
  assert (Hsub : Spec.containsCI "Milk," "MILK").
  { exists "", "Milk", ",". split; reflexivity. }
  assert (Hin : In Sample.groceries
                   (Home.filteredNotes IsoDate.parse
                      (Home.setSearchQuery "Milk," Sample.shelf)))
    by (left; reflexivity).
  split; [exact Hlow|]. split; [exact Hsub|]. split; [exact Hin|].
  exact (proj2 (longer_query_narrows IsoDate.parse "MILK" "Milk," Sample.shelf
                  Sample.groceries) Hsub Hin).
Defined.

Lemma delete_keeps_visible_order_witness :
  Spec.validDates IsoDate.parse (Home.notes Sample.shelf)
  /\ Home.filteredNotes IsoDate.parse
       (Home.deleteNote true "1709634030400" Sample.shelf)
     = [Sample.groceries]
  /\ Home.filteredNotes IsoDate.parse
       (Home.deleteNote true "1709634030400" Sample.shelf)
     = filter (fun note => negb (Note.id note =? "1709634030400")%string)
              (Home.filteredNotes IsoDate.parse Sample.shelf).
Proof.
  assert (Hv : Spec.validDates IsoDate.parse (Home.notes Sample.shelf))
    by (repeat constructor; vm_compute; discriminate).
  split; [exact Hv|]. split; [reflexivity|].
  exact (delete_keeps_visible_order IsoDate.parse "1709634030400"
           Sample.shelf Hv).
Defined.

(** ** Which note comes first *)

Section Top.

Import Home.

Variable Date_parse : string -> option Z.

Notation visible := (filteredNotes Date_parse).
Notation sorted := (JS.sort (byRecency Date_parse)).

Lemma insert_front x l t :
  Date_parse (Note.updatedAt x) = Some t ->
  Forall (Spec.notAfter Date_parse t) l ->
  JS.insert (byRecency Date_parse) x l = x :: l.
Proof.
  intros Ex Hl. destruct l as [|y l]; [reflexivity|].
  apply Forall_cons_iff in Hl as [[u [Ey Hu]] _]. cbn [JS.insert].
  rewrite (compare_valid Date_parse x y t u Ex Ey).
  destruct (0 <? u - t)%Z eqn:C; [|reflexivity].
  apply Z.ltb_lt in C. lia.
Qed.

Lemma before_notAfter t note :
  Spec.before Date_parse t note -> Spec.notAfter Date_parse t note.
Proof.
  intros [u [E H]]. exists u. split; [exact E|lia].
Qed.

(** A note later than all notes before it and not earlier than those
    after it is sorted to the front. *)
Lemma sort_latest_first l1 x l2 t :
  Date_parse (Note.updatedAt x) = Some t ->
  Forall (Spec.before Date_parse t) l1 ->
  Forall (Spec.notAfter Date_parse t) l2 ->
  sorted (l1 ++ x :: l2)%list = x :: sorted (l1 ++ l2)%list.
Proof.
  intros Ex H1 H2. induction H1 as [|y l1 [u [Ey Hu]] H1 IH].
  - cbn [app JS.sort]. apply (insert_front x _ t Ex).
    exact (Permutation_Forall
             (Permutation_sym (sort_permutation Date_parse l2)) H2).
  - cbn [app JS.sort]. rewrite IH. cbn [JS.insert].
    rewrite (compare_valid Date_parse y x u t Ey Ex).
    destruct (0 <? t - u)%Z eqn:C; [reflexivity|].
    apply Z.ltb_ge in C. lia.
Qed.

Lemma filter_all_pass st l :
  searchQuery st = "" -> selectedTag st = None ->
  filter (fun note => matchesSearch (searchQuery st) note
                      && matchesTag (selectedTag st) note) l = l.
Proof.
  intros -> ->. apply filter_id, Forall_forall. intros note _. reflexivity.
Qed.

(** X12: with no filter set and a clock not behind the notes, a new note is
    the first of the visible list, above the list as it was. *)
Theorem created_note_comes_first now stamp t st :
  currentNote st = None ->
  ~ (Spec.blank (title st) /\ Spec.blank (content st)) ->
  searchQuery st = "" -> selectedTag st = None ->
  Date_parse now = Some t ->
  Forall (Spec.notAfter Date_parse t) (notes st) ->
  visible (saveNote now stamp st) = Spec.created st now stamp :: visible st.
Proof.
  intros Hc Hb Hq Hs Hnow Hold.
  rewrite (saveNote_create now stamp st Hc Hb). unfold filteredNotes.
  cbn [searchQuery selectedTag notes setCurrentNote setIsEditing setNotes].
  rewrite !(filter_all_pass st _ Hq Hs).
  exact (sort_latest_first [] (Spec.created st now stamp) (notes st) t
           Hnow (Forall_nil _) Hold).
Qed.

(** X13: with no filter set, distinct identifiers and a clock ahead of all
    other notes, the note that was edited is the first of the visible
    list after the save. *)
Theorem updated_note_comes_first now stamp t st cur note :
  currentNote st = Some cur ->
  ~ (Spec.blank (title st) /\ Spec.blank (content st)) ->
  searchQuery st = "" -> selectedTag st = None ->
  Spec.uniqueIds (notes st) ->
  In note (notes st) -> Note.id note = Note.id cur ->
  Date_parse now = Some t ->
  (forall n, In n (notes st) -> n <> note -> Spec.before Date_parse t n) ->
  hd_error (visible (saveNote now stamp st)) = Some (Spec.updated st now note).
Proof.
  intros Hc Hb Hq Hs Hu Hin Hid Hnow Hold.
  rewrite (saveNote_update now stamp st cur Hc Hb). unfold filteredNotes.
  cbn [searchQuery selectedTag notes setCurrentNote setIsEditing setNotes].
  rewrite (filter_all_pass st _ Hq Hs).
  destruct (in_split _ _ Hin) as [l1 [l2 E]].
  unfold Spec.uniqueIds in Hu. rewrite E in Hu, Hold.
  rewrite map_app in Hu. cbn [map] in Hu.
  pose proof (NoDup_remove_2 _ _ _ Hu) as Hout.
  assert (Hother : forall n, In n (l1 ++ l2)%list ->
                             Note.id n <> Note.id cur /\ n <> note).
  { intros n Hn.
    assert (Hne : Note.id n <> Note.id note).
    { intros En. apply Hout. rewrite <- En, <- map_app. now apply in_map. }
    split; [congruence|]. intros ->. now apply Hne. }
  assert (Hkeep : forall l, incl l (l1 ++ l2)%list ->
             map (fun n => if (Note.id n =? Note.id cur)%string
                           then Spec.updated st now n else n) l = l).
  { intros l Hl. apply (map_if_never (fun n => (Note.id n =? Note.id cur)%string)).
    apply Forall_forall. intros n Hn. apply String.eqb_neq.
    exact (proj1 (Hother n (Hl n Hn))). }
  assert (Hbefore : forall l, incl l (l1 ++ l2)%list ->
                              Forall (Spec.before Date_parse t) l).
  { intros l Hl. apply Forall_forall. intros n Hn. apply Hold.
    - specialize (Hl n Hn). apply in_app_or in Hl as [Hl|Hl];
        apply in_or_app; [now left|right; now right].
    - exact (proj2 (Hother n (Hl n Hn))). }
  rewrite E, map_app. cbn [map].
  rewrite (Hkeep l1) by (apply incl_appl, incl_refl).
  rewrite (Hkeep l2) by (apply incl_appr, incl_refl).
  apply String.eqb_eq in Hid. rewrite Hid.
  rewrite (sort_latest_first l1 (Spec.updated st now note) l2 t Hnow).
  - reflexivity.
  - apply Hbefore, incl_appl, incl_refl.
  - apply Forall_impl with (P := Spec.before Date_parse t);
      [apply before_notAfter|].
    apply Hbefore, incl_appr, incl_refl.
Qed.

End Top.

Lemma created_note_comes_first_witness :
  Home.currentNote Sample.padded = None
  /\ IsoDate.parse Sample.t1 = Some 1709634030400%Z
  /\ Forall (Spec.notAfter IsoDate.parse 1709634030400) (Home.notes Sample.padded)
  /\ Home.filteredNotes IsoDate.parse
       (Home.saveNote Sample.t1 1709634030400 Sample.padded)
     = Note.mk "1709634030400" "  x  " "" [] Sample.t1 Sample.t1
       :: Home.filteredNotes IsoDate.parse Sample.padded.
Proof.
  assert (Hb : ~ (Spec.blank (Home.title Sample.padded)
                  /\ Spec.blank (Home.content Sample.padded)))
    by (intros [H _]; vm_compute in H; discriminate H).
  assert (Hnow : IsoDate.parse Sample.t1 = Some 1709634030400%Z)
    by reflexivity.
  assert (Hold : Forall (Spec.notAfter IsoDate.parse 1709634030400)
                        (Home.notes Sample.padded)).
  { repeat constructor. exists 1704067200000%Z. split; [reflexivity|lia]. }
  split; [reflexivity|]. split; [exact Hnow|]. split; [exact Hold|].
  exact (created_note_comes_first IsoDate.parse Sample.t1 1709634030400 _
           Sample.padded eq_refl Hb eq_refl eq_refl Hnow Hold).
Defined.

Lemma updated_note_comes_first_witness :
  Home.currentNote Sample.retitled = Some Sample.groceries
  /\ Spec.uniqueIds (Home.notes Sample.retitled)
  /\ IsoDate.parse Sample.t2 = Some 1717228800000%Z
  /\ hd_error (Home.filteredNotes IsoDate.parse Sample.shelf)
     = Some Sample.meeting
  /\ hd_error (Home.filteredNotes IsoDate.parse
                 (Home.saveNote Sample.t2 7 Sample.retitled))
     = Some (Note.mk "1704067200000" "  x  " "Milk, eggs" ["home"]
                     Sample.t0 Sample.t2).
Proof.
  assert (Hb : ~ (Spec.blank (Home.title Sample.retitled)
                  /\ Spec.blank (Home.content Sample.retitled)))
    by (intros [H _]; vm_compute in H; discriminate H).
  assert (Hu : Spec.uniqueIds (Home.notes Sample.retitled)).
  { repeat constructor; simpl; intuition discriminate. }
  assert (Hnow : IsoDate.parse Sample.t2 = Some 1717228800000%Z)
    by reflexivity.
  assert (Hold : forall n, In n (Home.notes Sample.retitled) ->
                           n <> Sample.groceries ->
                           Spec.before IsoDate.parse 1717228800000 n).
  { intros n [<-|[<-|[]]] Hne; [congruence|].
    exists 1709634030400%Z. split; [reflexivity|lia]. }
  split; [reflexivity|]. split; [exact Hu|]. split; [exact Hnow|].
  split; [reflexivity|].
  exact (updated_note_comes_first IsoDate.parse Sample.t2 7 _ Sample.retitled
           Sample.groceries Sample.groceries eq_refl Hb eq_refl eq_refl Hu
           (or_introl eq_refl) eq_refl Hnow Hold).
Defined.

(** ** The tag row: [allTags] and the tag buttons *)

Section GenericSort.

Context {A : Type}.
Variable comparefn : A -> A -> option Z.

Notation compare := (JS.SortCompare comparefn).

Lemma insert_perm x l : Permutation (JS.insert comparefn x l) (x :: l).
Proof.
  induction l as [|y l IH]; simpl; [reflexivity|].
  destruct (0 <? compare x y)%Z; [|reflexivity].
  rewrite IH. apply perm_swap.
Qed.

Lemma sort_perm l : Permutation (JS.sort comparefn l) l.
Proof.
  induction l as [|x l IH]; simpl; [reflexivity|].
  rewrite insert_perm. now constructor.
Qed.

(** A consistent comparison function: what it puts after is not before,
    and "not after" is transitive. *)
Hypothesis compare_flip : forall x y, (0 < compare x y -> compare y x <= 0)%Z.
Hypothesis compare_trans :
  forall x y z, (compare x y <= 0 -> compare y z <= 0 -> compare x z <= 0)%Z.

Lemma insert_keeps_sorted x l :
  StronglySorted (fun a b => (compare a b <= 0)%Z) l ->
  StronglySorted (fun a b => (compare a b <= 0)%Z) (JS.insert comparefn x l).
Proof.
  induction 1 as [|y l Hs IH Hy]; simpl; [repeat constructor|].
  destruct (0 <? compare x y)%Z eqn:C.
  - apply Z.ltb_lt in C. constructor; [exact IH|].
    apply (Permutation_Forall (Permutation_sym (insert_perm x l))).
    constructor; [now apply compare_flip|exact Hy].
  - apply Z.ltb_ge in C. constructor; [now constructor|].
    constructor; [exact C|].
    eapply Forall_impl; [|exact Hy]. intros z Hz.
    now apply (compare_trans x y z).
Qed.

Lemma sort_is_sorted l :
  StronglySorted (fun a b => (compare a b <= 0)%Z) (JS.sort comparefn l).
Proof.
  induction l as [|x l IH]; simpl; [constructor|].
  now apply insert_keeps_sorted.
Qed.

End GenericSort.

Section TagRow.

Import Home.

Lemma ascii_compare_trans a b c :
  (a ?= b)%char = Lt -> (b ?= c)%char = Lt -> (a ?= c)%char = Lt.
Proof.
  unfold Ascii.compare. rewrite !N.compare_lt_iff. lia.
Qed.

Lemma string_compare_trans x :
  forall y z,
    String.compare x y <> Gt -> String.compare y z <> Gt ->
    String.compare x z <> Gt.
Proof.
  induction x as [|a x IH]; intros y z Hxy Hyz.
  - destruct z; simpl; discriminate.
  - destruct y as [|b y]; [simpl in Hxy; congruence|].
    destruct z as [|c z]; [simpl in Hyz; congruence|].
    simpl in *.
    destruct (a ?= b)%char eqn:Eab; [|clear Hxy|congruence].
    + apply Ascii.compare_eq_iff in Eab. subst b.
      destruct (a ?= c)%char; [now apply (IH y z)|discriminate|congruence].
    + destruct (b ?= c)%char eqn:Ebc; [| |congruence].
      * apply Ascii.compare_eq_iff in Ebc. subst c. rewrite Eab. discriminate.
      * rewrite (ascii_compare_trans a b c Eab Ebc). discriminate.
Qed.

Lemma defaultCompare_le x y :
  (JS.SortCompare JS.defaultCompare x y <= 0)%Z <-> String.compare x y <> Gt.
Proof.
  unfold JS.SortCompare, JS.defaultCompare, String.ltb.
  rewrite (String.compare_antisym y x).
  destruct (String.compare x y); simpl; split; intros H; try lia;
    try discriminate; congruence.
Qed.

Lemma defaultCompare_flip x y :
  (0 < JS.SortCompare JS.defaultCompare x y ->
   JS.SortCompare JS.defaultCompare y x <= 0)%Z.
Proof.
  intros H. apply defaultCompare_le. intros E.
  assert (Hle : (JS.SortCompare JS.defaultCompare x y <= 0)%Z).
  { apply defaultCompare_le. rewrite (String.compare_antisym x y), E.
    discriminate. }
  lia.
Qed.

Lemma defaultCompare_trans x y z :
  (JS.SortCompare JS.defaultCompare x y <= 0 ->
   JS.SortCompare JS.defaultCompare y z <= 0 ->
   JS.SortCompare JS.defaultCompare x z <= 0)%Z.
Proof.
  rewrite !defaultCompare_le. apply string_compare_trans.
Qed.

Lemma setOf_In l x : In x (JS.setOf l) <-> In x l.
Proof.
  induction l as [|y l IH]; simpl; [tauto|].
  rewrite filter_In, IH, negb_true_iff, String.eqb_neq.
  destruct (string_dec y x) as [->|Hne]; [tauto|].
  split; [tauto|]. intros [H|H]; [tauto|]. right. split; congruence.
Qed.

Lemma setOf_NoDup l : NoDup (JS.setOf l).
Proof.
  induction l as [|y l IH]; simpl; constructor.
  - rewrite filter_In, negb_true_iff, String.eqb_neq. tauto.
  - now apply NoDup_filter.
Qed.

Lemma sorted_distinct_ascending l :
  StronglySorted (fun a b => String.compare a b <> Gt) l ->
  NoDup l ->
  StronglySorted Spec.ascending l.
Proof.
  induction 1 as [|x l _ IH Hx]; intros Hnd; constructor.
  - apply IH. now apply NoDup_cons_iff in Hnd.
  - apply NoDup_cons_iff in Hnd as [Hout _].
    rewrite Forall_forall in *. intros y Hy. unfold Spec.ascending.
    specialize (Hx y Hy).
    destruct (String.compare x y) eqn:E; [|reflexivity|congruence].
    apply String.compare_eq_iff in E. subst y. contradiction.
Qed.

Lemma allTags_In st tag :
  In tag (allTags st)
  <-> exists note, In note (notes st) /\ In tag (Note.tags note).
Proof.
  unfold allTags. rewrite <- in_flat_map.
  rewrite <- (setOf_In (flat_map Note.tags (notes st)) tag).
  pose proof (sort_perm JS.defaultCompare
                (JS.setOf (flat_map Note.tags (notes st)))) as P.
  split; intros H.
  - exact (Permutation_in _ P H).
  - exact (Permutation_in _ (Permutation_sym P) H).
Qed.

(** X14: [allTags] lists exactly the tags that some note carries, each once,
    in strictly ascending code-unit order. *)
Theorem allTags_sorted_and_complete st :
  StronglySorted Spec.ascending (allTags st)
  /\ NoDup (allTags st)
  /\ forall tag,
       In tag (allTags st)
       <-> exists note, In note (notes st) /\ In tag (Note.tags note).
Proof.
  unfold allTags.
  set (l := JS.setOf (flat_map Note.tags (notes st))).
  pose proof (sort_perm JS.defaultCompare l) as P.
  assert (Hnd : NoDup (JS.sort JS.defaultCompare l)).
  { apply (Permutation_NoDup (Permutation_sym P)), setOf_NoDup. }
  split; [|split; [exact Hnd|]].
  - apply sorted_distinct_ascending; [|exact Hnd].
    pose proof (sort_is_sorted JS.defaultCompare defaultCompare_flip
                  defaultCompare_trans l) as Hs.
    clear -Hs. induction Hs as [|x r _ IH Hx]; constructor; [exact IH|].
    eapply Forall_impl; [|exact Hx]. intros y. apply defaultCompare_le.
  - intros tag. apply allTags_In.
Qed.

End TagRow.

Section TagButtons.

Import Home.

Variable Date_parse : string -> option Z.

Notation visible := (filteredNotes Date_parse).

Lemma visible_nil_iff st :
  visible st = []
  <-> filter (fun note => matchesSearch (searchQuery st) note
                          && matchesTag (selectedTag st) note) (notes st) = [].
Proof.
  unfold filteredNotes. split; intros H.
  - apply Permutation_nil. rewrite <- H. apply sort_permutation.
  - now rewrite H.
Qed.

(** X15: pressing the button of a tag of the tag row that is not the selected
    one, with an empty query, shows a list that is not empty and holds
    only notes with that tag. *)
Theorem tag_button_shows_its_notes tag st :
  In tag (allTags st) ->
  selectedTag st <> Some tag ->
  searchQuery st = "" ->
  selectedTag (toggleTag tag st) = Some tag
  /\ visible (toggleTag tag st) <> []
  /\ Forall (fun note => In tag (Note.tags note)) (visible (toggleTag tag st)).
Proof.
  intros Hin Hsel Hq.
  assert (Hs : selectedTag (toggleTag tag st) = Some tag).
  { unfold toggleTag. simpl. destruct (selectedTag st) as [t|]; [|reflexivity].
    destruct (String.eqb_spec tag t) as [->|_]; [congruence|reflexivity]. }
  split; [exact Hs|]. split.
  - apply allTags_In in Hin as [note [Hn Ht]].
    intros Hnil. apply visible_nil_iff in Hnil.
    assert (Hv : In note
                   (filter (fun n => matchesSearch (searchQuery (toggleTag tag st)) n
                                     && matchesTag (selectedTag (toggleTag tag st)) n)
                           (notes (toggleTag tag st)))).
    { apply filter_In. split; [exact Hn|]. rewrite Hs.
      change (searchQuery (toggleTag tag st)) with (searchQuery st).
      rewrite Hq. simpl. now apply arrayIncludes_In. }
    rewrite Hnil in Hv. contradiction.
  - apply Forall_forall. intros note Hv. unfold filteredNotes in Hv.
    apply (Permutation_in _ (sort_permutation Date_parse _)) in Hv.
    apply filter_In in Hv as [_ Hp]. apply andb_true_iff in Hp as [_ Ht].
    rewrite Hs in Ht. now apply arrayIncludes_In in Ht.
Qed.

Lemma filter_nil_iff {A} (p : A -> bool) l :
  filter p l = [] <-> Forall (fun x => p x = false) l.
Proof.
  induction l as [|x l IH]; simpl; [split; constructor|].
  destruct (p x) eqn:P.
  - split; [discriminate|]. intros H. apply Forall_cons_iff in H as [H _].
    congruence.
  - rewrite IH. split; [now constructor|]. intros H.
    now apply Forall_cons_iff in H.
Qed.

(** X16: the text "No notes yet" is rendered exactly when the list screen
    is rendered (the editor is closed), the query is empty and either no
    tag is selected and the collection is empty, or the selected tag is
    the empty string and no note carries it. *)
Theorem no_notes_yet_iff st :
  emptyState Date_parse st = Some "No notes yet. Tap + to create one!"
  <-> isEditing st = false
      /\ searchQuery st = ""
      /\ ((selectedTag st = None /\ notes st = [])
          \/ (selectedTag st = Some ""
              /\ forall note, In note (notes st) -> ~ In "" (Note.tags note))).
Proof.
  unfold emptyState. destruct (isEditing st) eqn:Ed.
  { split; [discriminate|]. intros [H _]. discriminate H. }
  split; [intros H; split; [reflexivity|]; revert H|intros [_ H]; revert H].
  - destruct (visible st) as [|n l] eqn:V; [|discriminate].
    apply visible_nil_iff in V.
    destruct (searchQuery st) as [|c q] eqn:Q; [|discriminate].
    intros H. split; [reflexivity|].
    destruct (selectedTag st) as [[|c t]|] eqn:S; [| discriminate H |].
    + right. split; [reflexivity|]. intros note Hn Ht.
      apply filter_nil_iff in V. rewrite Forall_forall in V.
      specialize (V note Hn). simpl in V.
      apply arrayIncludes_In in Ht. congruence.
    + left. split; [reflexivity|].
      rewrite filter_id in V; [exact V|].
      apply Forall_forall. intros note _. reflexivity.
  - intros [Hq [[Hs Hn]|[Hs Hn]]].
    + assert (V : visible st = [])
        by (apply visible_nil_iff; now rewrite Hn).
      now rewrite V, Hq, Hs.
    + assert (V : visible st = []).
      { apply visible_nil_iff, filter_nil_iff, Forall_forall.
        intros note Hin. rewrite Hq, Hs. simpl.
        apply arrayIncludes_false. now apply Hn. }
      now rewrite V, Hq, Hs.
Qed.

End TagButtons.

Lemma tag_button_shows_its_notes_witness :
  In "work" (Home.allTags Sample.shelf)
  /\ Home.allTags Sample.shelf = ["home"; "work"]
  /\ Home.filteredNotes IsoDate.parse (Home.toggleTag "work" Sample.shelf)
     = [Sample.meeting]
  /\ Home.filteredNotes IsoDate.parse (Home.toggleTag "work" Sample.shelf)
     <> [].
Proof.
  assert (Hin : In "work" (Home.allTags Sample.shelf))
    by (right; left; reflexivity).
  split; [exact Hin|]. split; [reflexivity|]. split; [reflexivity|].
  apply (tag_button_shows_its_notes IsoDate.parse "work" Sample.shelf Hin).
  - discriminate.
  - reflexivity.
Defined.

Lemma no_notes_yet_iff_witness :
  Home.notes Sample.emptyTagSelected = [Sample.groceries; Sample.meeting]
  /\ Home.emptyState IsoDate.parse (Home.createNote Home.initial) = None
  /\ Home.emptyState IsoDate.parse Sample.emptyTagSelected
     = Some "No notes yet. Tap + to create one!".
Proof.
  split; [reflexivity|]. split; [reflexivity|].
  apply (no_notes_yet_iff IsoDate.parse Sample.emptyTagSelected).
  split; [reflexivity|]. split; [reflexivity|]. right. split; [reflexivity|].
  intros note [<-|[<-|[]]]; vm_compute; intuition discriminate.
Defined.

(** ** Persistence: one text per collection *)

Section PersistenceMore.

Import Home.

(** X17: two collections that [persist] writes as the same text are the same
    collection. *)
Theorem persist_injective a b storage storage' :
  getItem "notes" (persist a storage) = getItem "notes" (persist b storage') ->
  a = b.
Proof.
  unfold persist. rewrite !getItem_setItem. intros E.
  assert (E' : JSON.stringify (encode a) = JSON.stringify (encode b))
    by congruence.
  pose proof (parse_stringify _ (plain_encode a)) as Ha.
  pose proof (parse_stringify _ (plain_encode b)) as Hb.
  rewrite E', Hb in Ha.
  assert (Hab : encode b = encode a) by congruence. clear Ha.
  rename Hab into Ha. symmetry in Ha.
  pose proof (asNotes_encode a) as Da. rewrite Ha, asNotes_encode in Da.
  congruence.
Qed.

Lemma persist_injective_witness :
  getItem "notes" (persist [Sample.groceries] Sample.emptyStorage)
  = getItem "notes" (persist [Sample.groceries] Sample.brokenStorage)
  /\ [Sample.groceries] = [Sample.groceries].
Proof.
  assert (E : getItem "notes" (persist [Sample.groceries] Sample.emptyStorage)
              = getItem "notes" (persist [Sample.groceries] Sample.brokenStorage))
    by reflexivity.
  split; [exact E|].
  exact (persist_injective _ _ _ _ E).
Defined.

End PersistenceMore.

(** ** Sequences of events *)

Section Events.

Import Home.

Variable Date_parse : string -> option Z.

Notation step := (Home.step Date_parse).
Notation run := (Home.run Date_parse).
Notation visible := (filteredNotes Date_parse).

Lemma run_cons ev events st : run (ev :: events) st = run events (step ev st).
Proof.
  reflexivity.
Qed.

(** An invariant of the steps is an invariant of the runs. *)
Lemma run_invariant (ok : Event -> Prop) (P : State -> Prop) :
  (forall ev st, ok ev -> P st -> P (step ev st)) ->
  forall events st, Forall ok events -> P st -> P (run events st).
Proof.
  intros Hstep events. induction events as [|ev events IH]; intros st Hok HP;
    [exact HP|].
  apply Forall_cons_iff in Hok as [Hev Hok].
  rewrite run_cons. apply IH; [exact Hok|]. now apply Hstep.
Qed.

Lemma addTag_notes st : notes (addTag st) = notes st.
Proof.
  unfold addTag.
  destruct (JS.truthy _ && negb _); reflexivity.
Qed.

Lemma handleTagInputKeyDown_cases key st :
  handleTagInputKeyDown key st = addTag st
  \/ handleTagInputKeyDown key st = st.
Proof.
  unfold handleTagInputKeyDown. destruct (key =? "Enter")%string; auto.
Qed.

(** What a step does to the collection: nothing, a save from the editor,
    or a deletion from the list. *)
Lemma step_notes ev st :
  notes (step ev st) = notes st
  \/ (exists now stamp, ev = ClickSave now stamp /\ isEditing st = true
                        /\ step ev st = saveNote now stamp st)
  \/ (exists i confirmed note,
         ev = ClickDelete i confirmed /\ isEditing st = false
         /\ nth_error (visible st) i = Some note
         /\ step ev st = deleteNote confirmed (Note.id note) st).
Proof.
  unfold Home.step. destruct (isEditing st) eqn:Ed; destruct ev;
    try (left; reflexivity).
  - right. left. now exists now, stamp.
  - left. destruct (handleTagInputKeyDown_cases key st) as [-> | ->];
      [apply addTag_notes|reflexivity].
  - left. apply addTag_notes.
  - left. destruct (nth_error (tags st) i); reflexivity.
  - left. destruct (allTags st); reflexivity.
  - left. destruct (nth_error (allTags st) i); reflexivity.
  - left. destruct (nth_error (visible st) i); reflexivity.
  - destruct (nth_error (visible st) i) as [note|] eqn:N;
      [|left; reflexivity].
    right. right. now exists i, confirmed, note.
Qed.

(** X18: only a save and a confirmed deletion change the collection: every
    other event leaves it as it is. *)
Theorem only_save_and_delete_change_notes ev st :
  (forall now stamp, ev <> ClickSave now stamp) ->
  (forall i, ev <> ClickDelete i true) ->
  notes (step ev st) = notes st.
Proof.
  intros Hs Hd. destruct (step_notes ev st) as [H|[H|H]]; [exact H| |].
  - destruct H as [now [stamp [E _]]]. now apply Hs in E.
  - destruct H as [i [confirmed [note [E [_ [_ ->]]]]]].
    destruct confirmed; [now apply Hd in E|reflexivity].
Qed.

(** *** No blank note is ever stored *)

Lemma blank_dec s : {Spec.blank s} + {~ Spec.blank s}.
Proof.
  apply string_dec.
Qed.

Lemma both_blank_dec st :
  {Spec.blank (title st) /\ Spec.blank (content st)}
  + {~ (Spec.blank (title st) /\ Spec.blank (content st))}.
Proof.
  destruct (blank_dec (title st)), (blank_dec (content st)); tauto.
Qed.

(** An invariant of the notes that holds of the note a save writes is
    kept by the save. *)
Lemma saveNote_keeps (P : Note -> Prop) now stamp st :
  (~ (Spec.blank (title st) /\ Spec.blank (content st)) ->
   forall i c, P (Note.mk i (title st) (content st) (tags st) c now)) ->
  Forall P (notes st) -> Forall P (notes (saveNote now stamp st)).
Proof.
  intros Hnew Hold. destruct (both_blank_dec st) as [[Ht Hc]|Hb].
  { now rewrite (saveNote_blank now stamp st Ht Hc). }
  specialize (Hnew Hb). destruct (currentNote st) as [cur|] eqn:Hc.
  - rewrite (saveNote_update now stamp st cur Hc Hb). simpl.
    rewrite Forall_forall in *. intros n Hn.
    apply in_map_iff in Hn as [old [<- Hin]].
    destruct (Note.id old =? Note.id cur)%string; [apply Hnew|now apply Hold].
  - rewrite (saveNote_create now stamp st Hc Hb). simpl.
    constructor; [apply Hnew|exact Hold].
Qed.

Lemma deleteNote_keeps (P : Note -> Prop) confirmed id st :
  Forall P (notes st) -> Forall P (notes (deleteNote confirmed id st)).
Proof.
  intros H. destruct confirmed; [|exact H]. simpl.
  rewrite Forall_forall in *. intros n Hn. apply filter_In in Hn as [Hn _].
  now apply H.
Qed.

(** X19: from a collection without blank notes, whatever the events, no note
    with a blank title and a blank content is ever in the collection. *)
Theorem no_blank_note_is_ever_stored events st :
  Spec.noBlankNotes (notes st) ->
  Spec.noBlankNotes (notes (run events st)).
Proof.
  intros H.
  apply (run_invariant (fun _ => True)
           (fun s => Spec.noBlankNotes (notes s)));
    [|apply Forall_forall; trivial|exact H].
  clear. intros ev st _ H.
  destruct (step_notes ev st) as [E|[E|E]].
  - now rewrite E.
  - destruct E as [now [stamp [_ [_ ->]]]].
    apply saveNote_keeps; [|exact H]. intros Hb i c. exact Hb.
  - destruct E as [i [confirmed [note [_ [_ [_ ->]]]]]].
    now apply deleteNote_keeps.
Qed.

(** *** Tags stay distinct and normalized *)

Lemma removeTag_keeps_clean tag st :
  Spec.tagsClean (tags st) -> Spec.tagsClean (tags (removeTag tag st)).
Proof.
  intros [Hnd Hnf]. simpl. split; [now apply NoDup_filter|].
  rewrite Forall_forall in *. intros t Ht. apply filter_In in Ht as [Ht _].
  now apply Hnf.
Qed.

Lemma saveNote_tags now stamp st : tags (saveNote now stamp st) = tags st.
Proof.
  unfold saveNote.
  destruct (negb _ && negb _); [reflexivity|].
  destruct (currentNote st); reflexivity.
Qed.

Lemma visible_in_notes st note : In note (visible st) -> In note (notes st).
Proof.
  unfold filteredNotes. intros H.
  apply (Permutation_in _ (sort_permutation Date_parse _)) in H.
  now apply filter_In in H.
Qed.

Lemma step_keeps_clean ev st :
  Spec.cleanNotes (notes st) /\ Spec.tagsClean (tags st) ->
  Spec.cleanNotes (notes (step ev st)) /\ Spec.tagsClean (tags (step ev st)).
Proof.
  intros [Hn Ht]. unfold Home.step.
  destruct (isEditing st) eqn:Ed; destruct ev; try (split; assumption).
  - split; [|now rewrite saveNote_tags].
    apply saveNote_keeps; [|exact Hn]. intros _ i c. exact Ht.
  - destruct (handleTagInputKeyDown_cases key st) as [-> | ->];
      [|split; assumption].
    split; [now rewrite addTag_notes|now apply addTag_keeps_clean].
  - split; [now rewrite addTag_notes|now apply addTag_keeps_clean].
  - destruct (nth_error (tags st) i); [|split; assumption].
    split; [exact Hn|now apply removeTag_keeps_clean].
  - split; [exact Hn|]. split; constructor.
  - destruct (allTags st); split; assumption.
  - destruct (nth_error (allTags st) i); split; assumption.
  - destruct (nth_error (visible st) i) as [note|] eqn:N; [|split; assumption].
    split; [exact Hn|]. simpl.
    apply nth_error_In, visible_in_notes in N.
    unfold Spec.cleanNotes in Hn. rewrite Forall_forall in Hn.
    now apply Hn.
  - destruct (nth_error (visible st) i) as [note|]; [|split; assumption].
    split; [now apply deleteNote_keeps|].
    destruct confirmed; exact Ht.
Qed.

(** X20: when the tags of every note and of the draft are pairwise distinct
    and in normal form, they remain so whatever the events. *)
Theorem tags_stay_clean events st :
  Spec.cleanNotes (notes st) -> Spec.tagsClean (tags st) ->
  Spec.cleanNotes (notes (run events st))
  /\ Spec.tagsClean (tags (run events st)).
Proof.
  intros Hn Ht.
  apply (run_invariant (fun _ => True)
           (fun s => Spec.cleanNotes (notes s) /\ Spec.tagsClean (tags s)));
    [|apply Forall_forall; trivial|now split].
  intros ev s _. apply step_keeps_clean.
Qed.

(** *** Dates stay valid, and the list sorted *)

(** X21: when the [updatedAt] of every note is a date and every save carries
    a clock reading that is one, then after the events every
    [updatedAt] is a date again and the visible list is sorted most
    recent first. *)
Theorem reachable_list_is_sorted events st :
  Spec.validDates Date_parse (notes st) ->
  Spec.clocksValid Date_parse events ->
  Spec.validDates Date_parse (notes (run events st))
  /\ StronglySorted (Spec.notOlder Date_parse) (visible (run events st)).
Proof.
  intros Hv Hc.
  assert (Hv' : Spec.validDates Date_parse (notes (run events st))).
  { apply (run_invariant
             (fun ev => match ev with
                        | ClickSave now _ => Date_parse now <> None
                        | _ => True
                        end)
             (fun s => Spec.validDates Date_parse (notes s)));
      [|exact Hc|exact Hv].
    clear. intros ev st Hok H.
    destruct (step_notes ev st) as [E|[E|E]].
    - now rewrite E.
    - destruct E as [now [stamp [-> [_ ->]]]].
      now apply saveNote_keeps_dates.
    - destruct E as [i [confirmed [note [_ [_ [_ ->]]]]]].
      now apply deleteNote_keeps_dates. }
  split; [exact Hv'|]. unfold filteredNotes.
  apply sort_sorted, validDates_filter, Hv'.
Qed.

(** *** An abandoned draft *)

Lemma step_draftOnly ev st :
  isEditing st = true -> Spec.draftOnly ev = true ->
  isEditing (step ev st) = true
  /\ notes (step ev st) = notes st
  /\ searchQuery (step ev st) = searchQuery st
  /\ selectedTag (step ev st) = selectedTag st.
Proof.
  intros Ed Hev. unfold Home.step. rewrite Ed.
  assert (Hadd : isEditing (addTag st) = true
                 /\ notes (addTag st) = notes st
                 /\ searchQuery (addTag st) = searchQuery st
                 /\ selectedTag (addTag st) = selectedTag st).
  { unfold addTag. destruct (JS.truthy _ && negb _); repeat split; exact Ed. }
  destruct ev; try discriminate Hev; try (repeat split; exact Ed).
  - destruct (handleTagInputKeyDown_cases key st) as [-> | ->];
      [exact Hadd|repeat split; exact Ed].
  - exact Hadd.
  - destruct (nth_error (tags st) i); repeat split; exact Ed.
Qed.

Lemma createNote_depends st st' :
  notes st' = notes st -> searchQuery st' = searchQuery st ->
  selectedTag st' = selectedTag st ->
  createNote st' = createNote st
  /\ forall note, editNote note st' = editNote note st.
Proof.
  intros En Eq Es. unfold createNote, editNote.
  unfold setIsEditing, setTagInput, setTags, setContent, setTitle,
    setCurrentNote. simpl. rewrite En, Eq, Es. split; reflexivity.
Qed.

(** X22: whatever is typed, tagged and untagged in the editor, leaving with
    Back gives the Browsing state with the collection and the filters as
    they were, and the next editor, for a new note or for an existing
    one, opens as if the draft had never been. *)
Theorem abandoned_draft_leaves_no_trace events st :
  isEditing st = true ->
  forallb Spec.draftOnly events = true ->
  Spec.Browsing (step ClickBack (run events st))
  /\ notes (step ClickBack (run events st)) = notes st
  /\ createNote (step ClickBack (run events st)) = createNote st
  /\ forall note,
       editNote note (step ClickBack (run events st)) = editNote note st.
Proof.
  intros Ed Hev.
  assert (H : isEditing (run events st) = true
              /\ notes (run events st) = notes st
              /\ searchQuery (run events st) = searchQuery st
              /\ selectedTag (run events st) = selectedTag st).
  { revert st Ed. induction events as [|ev events IH]; intros st Ed;
      [repeat split; exact Ed|].
    simpl in Hev. apply andb_true_iff in Hev as [Hd Hev].
    destruct (step_draftOnly ev st Ed Hd) as [Ed' [En [Eq Es]]].
    rewrite run_cons.
    destruct (IH Hev (step ev st) Ed') as [H1 [H2 [H3 H4]]].
    repeat split; congruence. }
  destruct H as [Ed' [En [Eq Es]]].
  unfold Home.step. rewrite Ed'.
  split; [reflexivity|]. split; [exact En|].
  apply createNote_depends; assumption.
Qed.

End Events.

Lemma only_save_and_delete_change_notes_witness :
  (forall now stamp, Home.ClickCard 0 <> Home.ClickSave now stamp)
  /\ (forall i, Home.ClickCard 0 <> Home.ClickDelete i true)
  /\ Home.notes (Home.step IsoDate.parse (Home.ClickCard 0) Sample.shelf)
     = Home.notes Sample.shelf.
Proof.
  assert (Hs : forall now stamp, Home.ClickCard 0 <> Home.ClickSave now stamp)
    by discriminate.
  assert (Hd : forall i, Home.ClickCard 0 <> Home.ClickDelete i true)
    by discriminate.
  split; [exact Hs|]. split; [exact Hd|].
  exact (only_save_and_delete_change_notes IsoDate.parse _ Sample.shelf Hs Hd).
Defined.

Lemma no_blank_note_is_ever_stored_witness :
  Spec.noBlankNotes (Home.notes Home.initial)
  /\ map Note.title (Home.notes (Home.run IsoDate.parse Sample.clicks Home.initial))
     = ["Groceries"]
  /\ Spec.noBlankNotes
       (Home.notes (Home.run IsoDate.parse Sample.clicks Home.initial)).
Proof.
  assert (H : Spec.noBlankNotes (Home.notes Home.initial)) by constructor.
  split; [exact H|]. split; [reflexivity|].
  exact (no_blank_note_is_ever_stored IsoDate.parse Sample.clicks
           Home.initial H).
Defined.

Lemma tags_stay_clean_witness :
  Spec.cleanNotes (Home.notes Home.initial)
  /\ Spec.tagsClean (Home.tags Home.initial)
  /\ map Note.tags (Home.notes (Home.run IsoDate.parse Sample.clicks Home.initial))
     = [["food"]]
  /\ Spec.cleanNotes
       (Home.notes (Home.run IsoDate.parse Sample.clicks Home.initial)).
Proof.
  assert (Hn : Spec.cleanNotes (Home.notes Home.initial)) by constructor.
  assert (Ht : Spec.tagsClean (Home.tags Home.initial))
    by (split; constructor).
  split; [exact Hn|]. split; [exact Ht|]. split; [reflexivity|].
  exact (proj1 (tags_stay_clean IsoDate.parse Sample.clicks Home.initial
                  Hn Ht)).
Defined.

Lemma reachable_list_is_sorted_witness :
  Spec.validDates IsoDate.parse (Home.notes Home.initial)
  /\ Spec.clocksValid IsoDate.parse Sample.clicks
  /\ StronglySorted (Spec.notOlder IsoDate.parse)
       (Home.filteredNotes IsoDate.parse
          (Home.run IsoDate.parse Sample.clicks Home.initial)).
Proof.
  assert (Hv : Spec.validDates IsoDate.parse (Home.notes Home.initial))
    by constructor.
  assert (Hc : Spec.clocksValid IsoDate.parse Sample.clicks).
  { unfold Spec.clocksValid, Sample.clicks.
    repeat (constructor; [first [exact I | vm_compute; discriminate]|]).
    constructor. }
  split; [exact Hv|]. split; [exact Hc|].
  exact (proj2 (reachable_list_is_sorted IsoDate.parse Sample.clicks
                  Home.initial Hv Hc)).
Defined.

Lemma abandoned_draft_leaves_no_trace_witness :
  Home.isEditing (Home.editNote Sample.groceries Sample.shelf) = true
  /\ forallb Spec.draftOnly Sample.scribbles = true
  /\ Home.title (Home.run IsoDate.parse Sample.scribbles
                   (Home.editNote Sample.groceries Sample.shelf))
     = "Draft"
  /\ Home.notes
       (Home.step IsoDate.parse Home.ClickBack
          (Home.run IsoDate.parse Sample.scribbles
             (Home.editNote Sample.groceries Sample.shelf)))
     = [Sample.groceries; Sample.meeting].
Proof.
  split; [reflexivity|]. split; [reflexivity|]. split; [reflexivity|].
  exact (proj1 (proj2
    (abandoned_draft_leaves_no_trace IsoDate.parse Sample.scribbles
       (Home.editNote Sample.groceries Sample.shelf) eq_refl eq_refl))).
Defined.
